(** * A light-sensor logging node on FreeRTOS (upmain.c)

    Shallow embedding of the firmware in [upmain.c]: the debounced button
    interrupt handler, the sensor task that appends ADC readings to a ring
    log under a mutex, and the logger task that suspends the sensor task,
    copies the log under the same mutex, resumes the sensor task and prints
    statistics of the copy.

    The two tasks and the interrupt handler are modelled as one transition
    system.  A program location of each task is named after the line of
    [upmain.c] it is about to execute; one transition executes one
    statement.  The scheduler is not modelled: any enabled transition may
    be taken, which covers every preemptive schedule.  The FreeRTOS
    primitives are modelled by their contracts: a binary semaphore is a
    queue of length one, a mutex is free or held by a task, a bounded wait
    either succeeds (the mutex is free) or expires (it is still held), a
    suspended task takes no step. *)

From stdpp Require Import base list numbers.
From Stdlib Require Import ZArith Lia.

Local Open Scope Z_scope.

(** ** Configuration constants (upmain.c lines 16-18) *)

Definition LOG_SIZE : Z := 50.
Definition LIGHT_THRESHOLD : Z := 3000.
Definition DEBOUNCE_MS : Z := 50.

(** ** Fixed-width integers *)

Definition to_uint16 (z : Z) : Z := z mod 2 ^ 16.
Definition to_uint32 (z : Z) : Z := z mod 2 ^ 32.

Arguments to_uint16 : simpl never.
Arguments to_uint32 : simpl never.

(** ** Program state *)

Inductive task := Sensor | Logger.

(** Locations of [LightSensorTask]; [adc_val] is its local variable. *)
Inductive sensor_loc :=
| S65                 (* adc1_config_width / adc1_config_channel_atten *)
| S69                 (* adc_val = adc1_get_raw(SENSOR_CHANNEL) *)
| S70 (adc_val : Z)   (* latest_adc = adc_val; printf *)
| S74 (adc_val : Z)   (* xSemaphoreTake(xLogMutex, pdMS_TO_TICKS(10)) *)
| S75 (adc_val : Z)   (* adc_log[log_index] = adc_val *)
| S76                 (* log_index = (log_index + 1) % LOG_SIZE *)
| S77                 (* xSemaphoreGive(xLogMutex) *)
| S80.                (* vTaskDelay(pdMS_TO_TICKS(200)) *)

(** Locations of [LoggerTask].  [L102 i] is inside [memcpy], about to copy
    element [i].  The flag of [L106] and [L110] records which branch of the
    [if] at line 101 was followed; no statement reads it. *)
Inductive logger_loc :=
| L87                 (* xSemaphoreTake(xButtonSem, portMAX_DELAY) *)
| L90                 (* LED acknowledgment, vTaskDelay(150 ms), printf *)
| L96                 (* if (sensorTaskHandle != NULL) vTaskSuspend *)
| L100                (* uint16_t buffer[LOG_SIZE]; *)
| L101                (* xSemaphoreTake(xLogMutex, pdMS_TO_TICKS(50)) *)
| L102 (i : nat)      (* memcpy(buffer, adc_log, sizeof(buffer)) *)
| L103                (* xSemaphoreGive(xLogMutex) *)
| L106 (took : bool)  (* if (sensorTaskHandle != NULL) vTaskResume *)
| L110 (took : bool). (* statistics loop, average, printf *)

(** The line printed by [LoggerTask] at line 124. *)
Record report := {
  rep_n : Z;
  rep_min : Z;
  rep_max : Z;
  rep_avg : Z;
  rep_threshold : Z;
  rep_over : Z
}.

Record state := {
  adc_log : list Z;               (* static uint16_t adc_log[LOG_SIZE] *)
  log_index : Z;                  (* static int log_index *)
  latest_adc : Z;                 (* static int latest_adc *)
  xButtonSem : nat;               (* items waiting in the binary semaphore *)
  xLogMutex : option task;        (* holder of the mutex, if any *)
  sensorTaskHandle : option task; (* None is NULL *)
  last_interrupt_time : Z;        (* static volatile TickType_t *)
  sensor_suspended : bool;        (* set by vTaskSuspend, cleared by vTaskResume *)
  sensor_pc : sensor_loc;
  logger_pc : logger_loc;
  buffer : list Z;                (* local uint16_t buffer[LOG_SIZE] of LoggerTask *)
  console : list report;          (* report lines printed so far *)
  appended : list Z               (* ghost: values stored by line 75, oldest first *)
}.

Definition set_adc_log (v : list Z) (s : state) : state :=
  {| adc_log := v; log_index := log_index s; latest_adc := latest_adc s;
     xButtonSem := xButtonSem s; xLogMutex := xLogMutex s;
     sensorTaskHandle := sensorTaskHandle s;
     last_interrupt_time := last_interrupt_time s;
     sensor_suspended := sensor_suspended s; sensor_pc := sensor_pc s;
     logger_pc := logger_pc s; buffer := buffer s; console := console s;
     appended := appended s |}.

Definition set_log_index (v : Z) (s : state) : state :=
  {| adc_log := adc_log s; log_index := v; latest_adc := latest_adc s;
     xButtonSem := xButtonSem s; xLogMutex := xLogMutex s;
     sensorTaskHandle := sensorTaskHandle s;
     last_interrupt_time := last_interrupt_time s;
     sensor_suspended := sensor_suspended s; sensor_pc := sensor_pc s;
     logger_pc := logger_pc s; buffer := buffer s; console := console s;
     appended := appended s |}.

Definition set_latest_adc (v : Z) (s : state) : state :=
  {| adc_log := adc_log s; log_index := log_index s; latest_adc := v;
     xButtonSem := xButtonSem s; xLogMutex := xLogMutex s;
     sensorTaskHandle := sensorTaskHandle s;
     last_interrupt_time := last_interrupt_time s;
     sensor_suspended := sensor_suspended s; sensor_pc := sensor_pc s;
     logger_pc := logger_pc s; buffer := buffer s; console := console s;
     appended := appended s |}.

Definition set_xButtonSem (v : nat) (s : state) : state :=
  {| adc_log := adc_log s; log_index := log_index s; latest_adc := latest_adc s;
     xButtonSem := v; xLogMutex := xLogMutex s;
     sensorTaskHandle := sensorTaskHandle s;
     last_interrupt_time := last_interrupt_time s;
     sensor_suspended := sensor_suspended s; sensor_pc := sensor_pc s;
     logger_pc := logger_pc s; buffer := buffer s; console := console s;
     appended := appended s |}.

Definition set_xLogMutex (v : option task) (s : state) : state :=
  {| adc_log := adc_log s; log_index := log_index s; latest_adc := latest_adc s;
     xButtonSem := xButtonSem s; xLogMutex := v;
     sensorTaskHandle := sensorTaskHandle s;
     last_interrupt_time := last_interrupt_time s;
     sensor_suspended := sensor_suspended s; sensor_pc := sensor_pc s;
     logger_pc := logger_pc s; buffer := buffer s; console := console s;
     appended := appended s |}.

Definition set_last_interrupt_time (v : Z) (s : state) : state :=
  {| adc_log := adc_log s; log_index := log_index s; latest_adc := latest_adc s;
     xButtonSem := xButtonSem s; xLogMutex := xLogMutex s;
     sensorTaskHandle := sensorTaskHandle s;
     last_interrupt_time := v;
     sensor_suspended := sensor_suspended s; sensor_pc := sensor_pc s;
     logger_pc := logger_pc s; buffer := buffer s; console := console s;
     appended := appended s |}.

Definition set_sensor_suspended (v : bool) (s : state) : state :=
  {| adc_log := adc_log s; log_index := log_index s; latest_adc := latest_adc s;
     xButtonSem := xButtonSem s; xLogMutex := xLogMutex s;
     sensorTaskHandle := sensorTaskHandle s;
     last_interrupt_time := last_interrupt_time s;
     sensor_suspended := v; sensor_pc := sensor_pc s;
     logger_pc := logger_pc s; buffer := buffer s; console := console s;
     appended := appended s |}.

Definition set_sensor_pc (v : sensor_loc) (s : state) : state :=
  {| adc_log := adc_log s; log_index := log_index s; latest_adc := latest_adc s;
     xButtonSem := xButtonSem s; xLogMutex := xLogMutex s;
     sensorTaskHandle := sensorTaskHandle s;
     last_interrupt_time := last_interrupt_time s;
     sensor_suspended := sensor_suspended s; sensor_pc := v;
     logger_pc := logger_pc s; buffer := buffer s; console := console s;
     appended := appended s |}.

Definition set_logger_pc (v : logger_loc) (s : state) : state :=
  {| adc_log := adc_log s; log_index := log_index s; latest_adc := latest_adc s;
     xButtonSem := xButtonSem s; xLogMutex := xLogMutex s;
     sensorTaskHandle := sensorTaskHandle s;
     last_interrupt_time := last_interrupt_time s;
     sensor_suspended := sensor_suspended s; sensor_pc := sensor_pc s;
     logger_pc := v; buffer := buffer s; console := console s;
     appended := appended s |}.

Definition set_buffer (v : list Z) (s : state) : state :=
  {| adc_log := adc_log s; log_index := log_index s; latest_adc := latest_adc s;
     xButtonSem := xButtonSem s; xLogMutex := xLogMutex s;
     sensorTaskHandle := sensorTaskHandle s;
     last_interrupt_time := last_interrupt_time s;
     sensor_suspended := sensor_suspended s; sensor_pc := sensor_pc s;
     logger_pc := logger_pc s; buffer := v; console := console s;
     appended := appended s |}.

Definition set_console (v : list report) (s : state) : state :=
  {| adc_log := adc_log s; log_index := log_index s; latest_adc := latest_adc s;
     xButtonSem := xButtonSem s; xLogMutex := xLogMutex s;
     sensorTaskHandle := sensorTaskHandle s;
     last_interrupt_time := last_interrupt_time s;
     sensor_suspended := sensor_suspended s; sensor_pc := sensor_pc s;
     logger_pc := logger_pc s; buffer := buffer s; console := v;
     appended := appended s |}.

Definition set_appended (v : list Z) (s : state) : state :=
  {| adc_log := adc_log s; log_index := log_index s; latest_adc := latest_adc s;
     xButtonSem := xButtonSem s; xLogMutex := xLogMutex s;
     sensorTaskHandle := sensorTaskHandle s;
     last_interrupt_time := last_interrupt_time s;
     sensor_suspended := sensor_suspended s; sensor_pc := sensor_pc s;
     logger_pc := logger_pc s; buffer := buffer s; console := console s;
     appended := v |}.

(** ** FreeRTOS primitives, by contract *)

(** A binary semaphore is a queue of length one: giving it when an item is
    already waiting fails and changes nothing. *)
Definition xSemaphoreGive_binary (waiting : nat) : nat :=
  if (waiting <? 1)%nat then S waiting else waiting.

(** Taking it removes the waiting item; with none waiting the caller blocks. *)
Definition xSemaphoreTake_binary (waiting : nat) : option nat :=
  match waiting with
  | S n => Some n
  | O => None
  end.

(** ** Statistics of the logger task (upmain.c lines 110-125) *)

Record stats := {
  sum : Z;                  (* uint32_t *)
  min : Z;                  (* uint16_t *)
  max : Z;                  (* uint16_t *)
  over_threshold_count : Z  (* int *)
}.

Definition stats_init : stats :=
  {| sum := 0; min := 4095; max := 0; over_threshold_count := 0 |}.

(** Body of the [for] loop at lines 115-119. *)
Definition stats_body (a : stats) (val : Z) : stats :=
  {| sum := to_uint32 (sum a + val);
     min := if val <? min a then val else min a;
     max := if val >? max a then val else max a;
     over_threshold_count :=
       if val >? LIGHT_THRESHOLD then over_threshold_count a + 1
       else over_threshold_count a |}.

(** [for (int i = 0; i < LOG_SIZE; i++) { uint16_t val = buffer[i]; ... }] *)
Definition stats_loop (buffer : list Z) : stats :=
  fold_left (fun a i => stats_body a (buffer !!! i))
            (seq 0 (Z.to_nat LOG_SIZE)) stats_init.

(** [uint16_t avg = sum / LOG_SIZE;] on an unsigned 32-bit [sum]. *)
Definition average (sum : Z) : Z := to_uint16 (sum / LOG_SIZE).

Definition LoggerTask_report (buffer : list Z) : report :=
  let a := stats_loop buffer in
  {| rep_n := LOG_SIZE; rep_min := min a; rep_max := max a;
     rep_avg := average (sum a); rep_threshold := LIGHT_THRESHOLD;
     rep_over := over_threshold_count a |}.

(** The contents an uninitialised [uint16_t buffer[LOG_SIZE]] can have. *)
Definition valid_stack (stack : list Z) : bool :=
  (length stack =? Z.to_nat LOG_SIZE)%nat
  && forallb (fun x => (0 <=? x) && (x <? 2 ^ 16)) stack.

(** ** Start-up *)

(** The values of the static variables when the program is loaded
    (upmain.c lines 22-31); no task exists yet. *)
Definition boot_state : state :=
  {| adc_log := replicate (Z.to_nat LOG_SIZE) 0; log_index := 0; latest_adc := 0;
     xButtonSem := 0%nat; xLogMutex := None; sensorTaskHandle := None;
     last_interrupt_time := 0; sensor_suspended := false;
     sensor_pc := S65; logger_pc := L87; buffer := []; console := [];
     appended := [] |}.

(** [app_main]: creates the two semaphores (the [assert] at line 135 stops
    the program when one could not be created) and the tasks, which start
    at their first statement.  It assigns none of [adc_log], [log_index],
    [latest_adc] and [last_interrupt_time].  Task creation is taken to
    succeed, so [sensorTaskHandle] is set. *)
Definition app_main (sem_created mutex_created : bool) (s : state) : option state :=
  if sem_created && mutex_created then
    Some {| adc_log := adc_log s; log_index := log_index s;
            latest_adc := latest_adc s;
            xButtonSem := 0%nat; xLogMutex := None;
            sensorTaskHandle := Some Sensor;
            last_interrupt_time := last_interrupt_time s;
            sensor_suspended := false;
            sensor_pc := S65; logger_pc := L87; buffer := [];
            console := console s; appended := appended s |}
  else None.

(** Events: which actor moves, with the value the environment supplies. *)
Inductive event :=
| Isr (now : Z)              (* button edge; xTaskGetTickCountFromISR() = now *)
| SensorRun (adc : Z)        (* next statement of the sensor task; adc1_get_raw() = adc *)
| SensorTimeout              (* the 10 ms wait at line 74 expires *)
| LoggerRun (stack : list Z) (* next statement of the logger task; stack is
                                what the memory of [buffer] holds at line 100 *)
| LoggerTimeout.             (* the 50 ms wait at line 101 expires *)

Section Firmware.

(** [portTICK_PERIOD_MS] comes from the FreeRTOS configuration, which is not
    part of the repository. *)
Variable portTICK_PERIOD_MS : Z.

(** ** The interrupt handler (upmain.c lines 34-42) *)

(** [(now - last_interrupt_time) * portTICK_PERIOD_MS] in [TickType_t],
    an unsigned 32-bit type. *)
Definition debounce_elapsed_ms (now last : Z) : Z :=
  to_uint32 (to_uint32 (now - last) * portTICK_PERIOD_MS).

Definition debounce_accepts (now : Z) (s : state) : bool :=
  DEBOUNCE_MS <=? debounce_elapsed_ms now (last_interrupt_time s).

Definition button_isr_handler (now : Z) (s : state) : state :=
  if debounce_accepts now s then
    set_xButtonSem (xSemaphoreGive_binary (xButtonSem s))
      (set_last_interrupt_time now s)
  else s.

(** ** The sensor task (upmain.c lines 64-82) *)

Definition sensor_step (adc : Z) (s : state) : option state :=
  if sensor_suspended s then None else
  match sensor_pc s with
  | S65 => Some (set_sensor_pc S69 s)
  | S69 => Some (set_sensor_pc (S70 adc) s)
  | S70 v => Some (set_sensor_pc (S74 v) (set_latest_adc v s))
  | S74 v =>
      match xLogMutex s with
      | None => Some (set_sensor_pc (S75 v) (set_xLogMutex (Some Sensor) s))
      | Some _ => None
      end
  | S75 v =>
      Some (set_sensor_pc S76
             (set_appended (appended s ++ [to_uint16 v])
               (set_adc_log
                  (<[Z.to_nat (log_index s) := to_uint16 v]> (adc_log s)) s)))
  | S76 => Some (set_sensor_pc S77
                   (set_log_index (Z.rem (log_index s + 1) LOG_SIZE) s))
  | S77 => Some (set_sensor_pc S80 (set_xLogMutex None s))
  | S80 => Some (set_sensor_pc S69 s)
  end.

(** The wait at line 74 gives up: the [if] body is skipped. *)
Definition sensor_timeout (s : state) : option state :=
  if sensor_suspended s then None else
  match sensor_pc s, xLogMutex s with
  | S74 _, Some _ => Some (set_sensor_pc S80 s)
  | _, _ => None
  end.

(** ** The logger task (upmain.c lines 85-127) *)

Definition logger_step (stack : list Z) (s : state) : option state :=
  match logger_pc s with
  | L87 =>
      match xSemaphoreTake_binary (xButtonSem s) with
      | Some n => Some (set_logger_pc L90 (set_xButtonSem n s))
      | None => None
      end
  | L90 => Some (set_logger_pc L96 s)
  | L96 =>
      Some (set_logger_pc L100
             (match sensorTaskHandle s with
              | Some _ => set_sensor_suspended true s
              | None => s
              end))
  | L100 =>
      if valid_stack stack then Some (set_logger_pc L101 (set_buffer stack s))
      else None
  | L101 =>
      match xLogMutex s with
      | None => Some (set_logger_pc (L102 0) (set_xLogMutex (Some Logger) s))
      | Some _ => None
      end
  | L102 i =>
      Some (set_logger_pc
             (if (S i <? Z.to_nat LOG_SIZE)%nat then L102 (S i) else L103)
             (set_buffer (<[i := adc_log s !!! i]> (buffer s)) s))
  | L103 => Some (set_logger_pc (L106 true) (set_xLogMutex None s))
  | L106 took =>
      Some (set_logger_pc (L110 took)
             (match sensorTaskHandle s with
              | Some _ => set_sensor_suspended false s
              | None => s
              end))
  | L110 took =>
      Some (set_logger_pc L87
             (set_console (console s ++ [LoggerTask_report (buffer s)]) s))
  end.

(** The wait at line 101 gives up: [memcpy] is skipped. *)
Definition logger_timeout (s : state) : option state :=
  match logger_pc s, xLogMutex s with
  | L101, Some _ => Some (set_logger_pc (L106 false) s)
  | _, _ => None
  end.

(** ** The system *)

Definition step (ev : event) (s : state) : option state :=
  match ev with
  | Isr now =>
      if (0 <=? now) && (now <? 2 ^ 32) then Some (button_isr_handler now s)
      else None
  | SensorRun adc => sensor_step adc s
  | SensorTimeout => sensor_timeout s
  | LoggerRun stack => logger_step stack s
  | LoggerTimeout => logger_timeout s
  end.

Fixpoint run (evs : list event) (s : state) : option state :=
  match evs with
  | [] => Some s
  | ev :: evs' =>
      match step ev s with
      | Some s' => run evs' s'
      | None => None
      end
  end.

Inductive reachable : state -> Prop :=
| reachable_start s0 :
    app_main true true boot_state = Some s0 -> reachable s0
| reachable_step s ev s' :
    reachable s -> step ev s = Some s' -> reachable s'.

End Firmware.

(** ** Notions used in the statements *)

(** Exact (unbounded) sum, minimum and maximum of a list of samples. *)
Definition exact_sum (l : list Z) : Z := foldr Z.add 0 l.

Definition exact_min (l : list Z) : Z :=
  match l with
  | [] => 0
  | x :: l' => foldr Z.min x l'
  end.

Definition exact_max (l : list Z) : Z :=
  match l with
  | [] => 0
  | x :: l' => foldr Z.max x l'
  end.

Definition is_sample (x : Z) : Prop := 0 <= x <= 4095.

(** The log read circularly, starting at slot [i]. *)
Definition ring_from (i : Z) (l : list Z) : list Z :=
  drop (Z.to_nat i) l ++ take (Z.to_nat i) l.

(** The last [n] elements of a list. *)
Definition last_n (n : nat) (l : list Z) : list Z := drop (length l - n) l.

(** The slot the next append will use; between lines 75 and 76 the value
    is stored but [log_index] is not advanced yet. *)
Definition ring_index (s : state) : Z :=
  match sensor_pc s with
  | S76 => Z.rem (log_index s + 1) LOG_SIZE
  | _ => log_index s
  end.

(** One iteration of the loop of the sensor task, from line 69 back to line
    69, when the mutex is obtained and when the wait expires. *)
Definition sensor_cycle (adc : Z) : list event := replicate 7 (SensorRun adc).

Definition sensor_cycle_dropped (adc : Z) : list event :=
  [SensorRun adc; SensorRun adc; SensorTimeout; SensorRun adc].

Definition is_logger_event (ev : event) : bool :=
  match ev with
  | LoggerRun _ | LoggerTimeout => true
  | _ => false
  end.

Definition sensor_in_cs (pc : sensor_loc) : bool :=
  match pc with
  | S75 _ | S76 | S77 => true
  | _ => false
  end.

Definition logger_in_cs (pc : logger_loc) : bool :=
  match pc with
  | L102 _ | L103 => true
  | _ => false
  end.

(** Locations of the logger task between [vTaskSuspend] and [vTaskResume]. *)
Definition in_suspend_window (pc : logger_loc) : bool :=
  match pc with
  | L100 | L101 | L102 _ | L103 | L106 _ => true
  | _ => false
  end.

(** A value that is the initial 0 or was stored by an append. *)
Definition from_log (hist : list Z) (x : Z) : Prop := x = 0 \/ x ∈ hist.

(** The state in which the tasks start: static initialisation, then
    [app_main] with both semaphores created. *)
Definition start_state : state :=
  default boot_state (app_main true true boot_state).


(** The events of one iteration of the sensor task started in [s]. *)
Definition sensor_iteration (s : state) (adc : Z) : list event :=
  match xLogMutex s with
  | None => sensor_cycle adc
  | Some _ => sensor_cycle_dropped adc
  end.

Section FirmwareRuns.

Variable portTICK_PERIOD_MS : Z.

(** How many of the edges delivered at the given tick counts are accepted. *)
Fixpoint count_accepted (nows : list Z) (s : state) : nat :=
  match nows with
  | [] => 0%nat
  | now :: nows' =>
      (if debounce_accepts portTICK_PERIOD_MS now s then 1 else 0)%nat
      + count_accepted nows' (button_isr_handler portTICK_PERIOD_MS now s)
  end.

(** The logger task running alone until it blocks or the fuel is spent: it
    executes its next statement, and where that is a bounded wait on a held
    mutex, the wait expires. *)
Fixpoint run_logger (stack : list Z) (fuel : nat) (s : state) : state :=
  match fuel with
  | O => s
  | S fuel' =>
      match logger_step stack s with
      | Some s' => run_logger stack fuel' s'
      | None =>
          match logger_timeout s with
          | Some s' => run_logger stack fuel' s'
          | None => s
          end
      end
  end.

(** Edges delivered one after the other at the given tick counts. *)
Definition isr_all (nows : list Z) (s : state) : state :=
  fold_left (fun s now => button_isr_handler portTICK_PERIOD_MS now s) nows s.

(** The edges, given by their time in milliseconds, that the handler
    accepts; an edge at [t] ms sees the tick count [t / portTICK_PERIOD_MS]. *)
Fixpoint accepted_edges (ts : list Z) (s : state) : list Z :=
  match ts with
  | [] => []
  | t :: ts' =>
      let now := t / portTICK_PERIOD_MS in
      let rest := accepted_edges ts' (button_isr_handler portTICK_PERIOD_MS now s) in
      if debounce_accepts portTICK_PERIOD_MS now s then t :: rest else rest
  end.

End FirmwareRuns.

(** [vTaskResume(sensorTaskHandle)] guarded by the test of line 106. *)
Definition resume_sensor (s : state) : state :=
  match sensorTaskHandle s with
  | Some _ => set_sensor_suspended false s
  | None => s
  end.

(** Locations of the logger task after a completed [memcpy]. *)
Definition copy_done (pc : logger_loc) : bool :=
  match pc with
  | L103 | L106 true | L110 true => true
  | _ => false
  end.

(** ** Example runs *)

(** The sensor task appends 0, 1, ..., 59; then the button is pressed and
    the logger task runs up to the statistics. *)
Definition wraparound_run : list event :=
  SensorRun 0 :: flat_map sensor_cycle (map Z.of_nat (seq 0 60))
  ++ Isr 50 :: replicate 57 (LoggerRun (replicate 50 0)).

(** The logger task is woken, the sensor task obtains the mutex for the
    reading 1000 and is suspended before it stores it; the wait of the
    logger task expires and it goes on with a [buffer] whose memory holds
    the pattern 0xa5a5. *)
Definition expired_wait_run : list event :=
  [Isr 100; LoggerRun []; LoggerRun [];
   SensorRun 0; SensorRun 1000; SensorRun 0; SensorRun 0;
   LoggerRun []; LoggerRun (replicate 50 42405); LoggerTimeout;
   LoggerRun []].

(** Two appends, a button press, a reading in flight while the logger task
    copies the log. *)
Definition copied_run : list event :=
  [SensorRun 0] ++ sensor_cycle 1000 ++ sensor_cycle 2000
  ++ [Isr 100] ++ replicate 2 (LoggerRun [])
  ++ [SensorRun 3000; SensorRun 0]
  ++ replicate 55 (LoggerRun (replicate 50 42405)).

(** Three appends of an earlier run. *)
Definition previous_run : list event :=
  [SensorRun 0] ++ sensor_cycle 11 ++ sensor_cycle 22 ++ sensor_cycle 33.

(** ** Notions used in the further properties *)

(** 1 while a cycle of the logger task is in progress, 0 while it waits. *)
Definition logger_busy (s : state) : nat :=
  match logger_pc s with
  | L87 => 0
  | _ => 1
  end.

(** [ConsolePrintTask] (upmain.c lines 56-61): the number printed by the
    status line at line 58. *)
Definition ConsolePrintTask_print (s : state) : Z := latest_adc s.

(** The reading the sensor task has taken and not stored yet. *)
Definition in_flight (s : state) : list Z :=
  match sensor_pc s with
  | S70 v | S74 v | S75 v => [to_uint16 v]
  | _ => []
  end.

(** What the sensor task has done with its latest reading. *)
Definition reading_placed (s : state) : Prop :=
  match sensor_pc s with
  | S74 v | S75 v => latest_adc s = v
  | _ =>
      (appended s = [] /\ latest_adc s = 0)
      \/ list.last (appended s) = Some (to_uint16 (latest_adc s))
  end.

Definition index_counts (s : state) : Prop :=
  ring_index s = Z.of_nat (length (appended s)) mod LOG_SIZE.

Definition is_uint16 (x : Z) : Prop := 0 <= x < 2 ^ 16.

(** Tick counts that never go back, starting from [last]. *)
Fixpoint nondecreasing_from (last : Z) (l : list Z) : Prop :=
  match l with
  | [] => True
  | a :: l' => last <= a /\ nondecreasing_from a l'
  end.

Section FirmwareObservations.

Variable portTICK_PERIOD_MS : Z.

(** The tick counts, among those delivered, at which the handler accepts. *)
Fixpoint accepted_ticks (nows : list Z) (s : state) : list Z :=
  match nows with
  | [] => []
  | now :: nows' =>
      let rest :=
        accepted_ticks nows' (button_isr_handler portTICK_PERIOD_MS now s) in
      if debounce_accepts portTICK_PERIOD_MS now s then now :: rest else rest
  end.

(** Every tick of the list is at least [DEBOUNCE_MS] after the one before
    it, the first one after [last]. *)
Fixpoint spaced (last : Z) (l : list Z) : Prop :=
  match l with
  | [] => True
  | a :: l' => DEBOUNCE_MS <= (a - last) * portTICK_PERIOD_MS /\ spaced a l'
  end.

(** The number of edges the handler accepts during a run. *)
Fixpoint accepted_in_run (evs : list event) (s : state) : nat :=
  match evs with
  | [] => 0%nat
  | ev :: evs' =>
      match step portTICK_PERIOD_MS ev s with
      | Some s' =>
          (match ev with
           | Isr now =>
               if debounce_accepts portTICK_PERIOD_MS now s then 1 else 0
           | _ => 0
           end + accepted_in_run evs' s')%nat
      | None => 0%nat
      end
  end.

(** The values returned by [adc1_get_raw] at line 69 during a run. *)
Fixpoint readings_taken (evs : list event) (s : state) : list Z :=
  match evs with
  | [] => []
  | ev :: evs' =>
      match step portTICK_PERIOD_MS ev s with
      | Some s' =>
          match ev, sensor_pc s with
          | SensorRun adc, S69 => [adc]
          | _, _ => []
          end ++ readings_taken evs' s'
      | None => []
      end
  end.

End FirmwareObservations.

(** The invariant of the system. *)
Record inv (s : state) : Prop := {
  inv_len : length (adc_log s) = Z.to_nat LOG_SIZE;
  inv_idx : 0 <= log_index s < LOG_SIZE;
  inv_handle : sensorTaskHandle s = Some Sensor;
  inv_mutex :
    xLogMutex s =
      if sensor_in_cs (sensor_pc s) then Some Sensor
      else if logger_in_cs (logger_pc s) then Some Logger
      else None;
  inv_excl : sensor_in_cs (sensor_pc s) && logger_in_cs (logger_pc s) = false;
  inv_copy :
    match logger_pc s with
    | L101 => length (buffer s) = Z.to_nat LOG_SIZE
    | L102 i =>
        (i < Z.to_nat LOG_SIZE)%nat
        /\ length (buffer s) = Z.to_nat LOG_SIZE
        /\ take i (buffer s) = take i (adc_log s)
    | L103 => buffer s = adc_log s
    | L106 true | L110 true =>
        length (buffer s) = Z.to_nat LOG_SIZE /\ Forall (from_log (appended s)) (buffer s)
    | L106 false | L110 false => length (buffer s) = Z.to_nat LOG_SIZE
    | _ => True
    end;
  inv_vals : Forall (from_log (appended s)) (adc_log s);
  inv_susp : sensor_suspended s = in_suspend_window (logger_pc s);
  inv_sem : (xButtonSem s <= 1)%nat;
  inv_ring :
    ring_from (ring_index s) (adc_log s)
    = last_n (Z.to_nat LOG_SIZE) (replicate (Z.to_nat LOG_SIZE) 0 ++ appended s)
}.

(** * Properties *)

(** ** Arithmetic of the statistics *)

Lemma index_loop_fold {A} (f : A -> Z -> A) (l pre : list Z) (a : A) :
  fold_left (fun a i => f a ((pre ++ l) !!! i)) (seq (length pre) (length l)) a
  = fold_left f l a.
Proof.
  revert pre a. induction l as [|x l IH]; intros pre a; [reflexivity|].
  cbn [length seq fold_left].
  replace ((pre ++ x :: l) !!! length pre) with x.
  2:{ rewrite lookup_total_app_r by lia. by rewrite Nat.sub_diag. }
  specialize (IH (pre ++ [x]) (f a x)).
  rewrite length_app, Nat.add_1_r, <- app_assoc in IH. exact IH.
Qed.

Lemma stats_loop_fold (buf : list Z) :
  length buf = Z.to_nat LOG_SIZE ->
  stats_loop buf = fold_left stats_body buf stats_init.
Proof.
  intros H. unfold stats_loop. rewrite <- H.
  exact (index_loop_fold stats_body buf [] stats_init).
Qed.

Lemma exact_sum_bounds (l : list Z) :
  Forall is_sample l -> 0 <= exact_sum l <= 4095 * Z.of_nat (length l).
Proof.
  induction 1 as [|x l Hx _ IH]; cbn [exact_sum foldr length] in *; [lia|].
  unfold is_sample in Hx. fold (exact_sum l). lia.
Qed.

Lemma fold_sum (l : list Z) (a : stats) :
  0 <= sum a -> Forall is_sample l -> sum a + exact_sum l < 2 ^ 32 ->
  sum (fold_left stats_body l a) = sum a + exact_sum l.
Proof.
  intros Ha Hl. revert a Ha.
  induction Hl as [|x l Hx Hl IH]; intros a Ha Hb; cbn [fold_left exact_sum foldr] in *.
  - lia.
  - fold (exact_sum l) in *. pose proof (exact_sum_bounds l Hl) as Hs.
    unfold is_sample in Hx.
    assert (Hsx : sum (stats_body a x) = sum a + x).
    { cbn [stats_body sum]. unfold to_uint32. apply Z.mod_small. lia. }
    rewrite IH; rewrite Hsx; lia.
Qed.

Lemma fold_min (l : list Z) (a : stats) :
  min (fold_left stats_body l a) = fold_left Z.min l (min a).
Proof.
  revert a. induction l as [|x l IH]; intros a; cbn [fold_left]; [reflexivity|].
  rewrite IH. f_equal. cbn [stats_body min].
  destruct (Z.ltb_spec x (min a)); lia.
Qed.

Lemma fold_max (l : list Z) (a : stats) :
  max (fold_left stats_body l a) = fold_left Z.max l (max a).
Proof.
  revert a. induction l as [|x l IH]; intros a; cbn [fold_left]; [reflexivity|].
  rewrite IH. f_equal. cbn [stats_body max].
  destruct (Z.gtb_spec x (max a)); lia.
Qed.

Lemma fold_over (l : list Z) (a : stats) :
  over_threshold_count (fold_left stats_body l a)
  = over_threshold_count a
    + Z.of_nat (length (filter (fun x => LIGHT_THRESHOLD < x) l)).
Proof.
  revert a. induction l as [|x l IH]; intros a; cbn [fold_left].
  - cbn. lia.
  - rewrite IH. cbn [stats_body over_threshold_count].
    rewrite filter_cons. destruct (Z.gtb_spec x LIGHT_THRESHOLD); case_decide;
      try lia; cbn [length]; lia.
Qed.

Lemma fold_min_spec (l : list Z) (m : Z) :
  fold_left Z.min l m <= m
  /\ Forall (fun x => fold_left Z.min l m <= x) l
  /\ (fold_left Z.min l m = m \/ fold_left Z.min l m ∈ l).
Proof.
  revert m. induction l as [|x l IH]; intros m; cbn [fold_left].
  - repeat split; [lia | constructor | by left].
  - destruct (IH (Z.min m x)) as (H1 & H2 & H3). repeat split.
    + lia.
    + constructor; [lia | exact H2].
    + destruct H3 as [H3|H3].
      * destruct (Z.min_spec m x) as [[_ E]|[_ E]].
        -- left. by rewrite H3.
        -- right. rewrite H3, E. apply list_elem_of_here.
      * right. by apply list_elem_of_further.
Qed.

Lemma fold_max_spec (l : list Z) (m : Z) :
  m <= fold_left Z.max l m
  /\ Forall (fun x => x <= fold_left Z.max l m) l
  /\ (fold_left Z.max l m = m \/ fold_left Z.max l m ∈ l).
Proof.
  revert m. induction l as [|x l IH]; intros m; cbn [fold_left].
  - repeat split; [lia | constructor | by left].
  - destruct (IH (Z.max m x)) as (H1 & H2 & H3). repeat split.
    + lia.
    + constructor; [lia | exact H2].
    + destruct H3 as [H3|H3].
      * destruct (Z.max_spec m x) as [[_ E]|[_ E]].
        -- right. rewrite H3, E. apply list_elem_of_here.
        -- left. by rewrite H3.
      * right. by apply list_elem_of_further.
Qed.

Lemma foldr_min_shift (l : list Z) (m x : Z) :
  foldr Z.min (Z.min m x) l = Z.min x (foldr Z.min m l).
Proof. induction l as [|y l IH]; cbn [foldr]; [lia | rewrite IH; lia]. Qed.

Lemma foldr_max_shift (l : list Z) (m x : Z) :
  foldr Z.max (Z.max m x) l = Z.max x (foldr Z.max m l).
Proof. induction l as [|y l IH]; cbn [foldr]; [lia | rewrite IH; lia]. Qed.

Lemma fold_left_min_foldr (l : list Z) (m : Z) :
  fold_left Z.min l m = foldr Z.min m l.
Proof.
  revert m. induction l as [|x l IH]; intros m; cbn [fold_left foldr]; [done|].
  by rewrite IH, foldr_min_shift.
Qed.

Lemma fold_left_max_foldr (l : list Z) (m : Z) :
  fold_left Z.max l m = foldr Z.max m l.
Proof.
  revert m. induction l as [|x l IH]; intros m; cbn [fold_left foldr]; [done|].
  by rewrite IH, foldr_max_shift.
Qed.

Lemma stats_sum_exact (buf : list Z) :
  (length buf <= Z.to_nat LOG_SIZE)%nat -> Forall is_sample buf ->
  sum (fold_left stats_body buf stats_init) = exact_sum buf
  /\ 0 <= exact_sum buf <= 204750.
Proof.
  intros Hlen Hs. pose proof (exact_sum_bounds buf Hs) as Hb.
  unfold LOG_SIZE in Hlen.
  split; [|lia]. rewrite fold_sum; cbn [stats_init sum]; [lia|lia|done|lia].
Qed.

Lemma stats_min_spec (buf : list Z) :
  buf <> [] -> Forall is_sample buf ->
  min (fold_left stats_body buf stats_init) ∈ buf
  /\ Forall (fun x => min (fold_left stats_body buf stats_init) <= x) buf.
Proof.
  intros Hne Hs. rewrite fold_min. cbn [stats_init min].
  destruct (fold_min_spec buf 4095) as (H1 & H2 & H3). split; [|exact H2].
  destruct H3 as [H3|H3]; [|exact H3].
  destruct buf as [|x buf]; [done|].
  rewrite H3 in H2. inversion H2; subst. inversion Hs; subst.
  unfold is_sample in *. assert (x = 4095) as -> by lia.
  rewrite H3. apply list_elem_of_here.
Qed.

Lemma stats_max_spec (buf : list Z) :
  buf <> [] -> Forall is_sample buf ->
  max (fold_left stats_body buf stats_init) ∈ buf
  /\ Forall (fun x => x <= max (fold_left stats_body buf stats_init)) buf.
Proof.
  intros Hne Hs. rewrite fold_max. cbn [stats_init max].
  destruct (fold_max_spec buf 0) as (H1 & H2 & H3). split; [|exact H2].
  destruct H3 as [H3|H3]; [|exact H3].
  destruct buf as [|x buf]; [done|].
  rewrite H3 in H2. inversion H2; subst. inversion Hs; subst.
  unfold is_sample in *. assert (x = 0) as -> by lia.
  rewrite H3. apply list_elem_of_here.
Qed.

Lemma nonempty_of_length (buf : list Z) :
  length buf = Z.to_nat LOG_SIZE -> buf <> [].
Proof. intros H ->. discriminate H. Qed.

(** C3: for a snapshot of 50 samples in [0, 4095] the report carries the
    minimum, the maximum, the number of values strictly above 3000 and the
    floor of the sum divided by 50; 49 values 3100 and one value 100, in any
    position, give min 100, max 3100, count 49 and average
    floor((49*3100+100)/50); a sum of 101 gives the average 2. *)
Theorem C3_report_statistics :
  (forall buf : list Z,
      length buf = Z.to_nat LOG_SIZE -> Forall is_sample buf ->
      let r := LoggerTask_report buf in
      rep_n r = 50
      /\ (rep_min r ∈ buf /\ Forall (fun x => rep_min r <= x) buf)
      /\ (rep_max r ∈ buf /\ Forall (fun x => x <= rep_max r) buf)
      /\ rep_over r = Z.of_nat (length (filter (fun x => 3000 < x) buf))
      /\ rep_avg r = exact_sum buf / 50
      /\ 50 * rep_avg r <= exact_sum buf < 50 * rep_avg r + 50)
  /\ (forall i : nat, (i <= 49)%nat ->
      LoggerTask_report (replicate i 3100 ++ 100 :: replicate (49 - i) 3100)
      = {| rep_n := 50; rep_min := 100; rep_max := 3100;
           rep_avg := (49 * 3100 + 100) / 50; rep_threshold := 3000;
           rep_over := 49 |})
  /\ average 101 = 2
  /\ rep_avg (LoggerTask_report (101 :: replicate 49 0)) = 2.
Proof.
  split; [|split; [|split]].
  - intros buf Hlen Hs r. subst r. unfold LoggerTask_report.
    cbn [rep_n rep_min rep_max rep_over rep_avg].
    rewrite (stats_loop_fold buf Hlen).
    pose proof (nonempty_of_length buf Hlen) as Hne.
    destruct (stats_sum_exact buf) as [Hsum Hb]; [lia|done|].
    assert (Havg : average (sum (fold_left stats_body buf stats_init))
                   = exact_sum buf / 50).
    { rewrite Hsum. unfold average, to_uint16, LOG_SIZE. apply Z.mod_small.
      split; [apply Z.div_pos; lia|].
      apply Z.div_lt_upper_bound; lia. }
    split; [reflexivity|].
    split; [by apply stats_min_spec|].
    split; [by apply stats_max_spec|].
    split; [rewrite fold_over; cbn [stats_init over_threshold_count];
            unfold LIGHT_THRESHOLD; lia|].
    split; [exact Havg|]. rewrite Havg.
    pose proof (Z.mul_div_le (exact_sum buf) 50).
    pose proof (Z.mul_succ_div_gt (exact_sum buf) 50). lia.
  - intros i Hi.
    do 50 (destruct i as [|i]; [vm_compute; reflexivity|]). lia.
  - reflexivity.
  - vm_compute. reflexivity.
Qed.

(** C9: for a snapshot of 50 samples in [0, 4095] the 32-bit sum never wraps
    (after any number of additions it is the exact sum, at most 204750), the
    16-bit average is the exact quotient, at most 4095, and the minimum and
    maximum are the exact ones. *)
Theorem C9_no_wraparound (buf : list Z) :
  length buf = Z.to_nat LOG_SIZE -> Forall is_sample buf ->
  (forall k : nat,
      sum (fold_left stats_body (take k buf) stats_init) = exact_sum (take k buf)
      /\ 0 <= exact_sum (take k buf) <= 204750)
  /\ sum (stats_loop buf) = exact_sum buf
  /\ 0 <= exact_sum buf <= 50 * 4095
  /\ 50 * 4095 < 2 ^ 32
  /\ average (sum (stats_loop buf)) = exact_sum buf / 50
  /\ 0 <= exact_sum buf / 50 <= 4095
  /\ min (stats_loop buf) = exact_min buf
  /\ max (stats_loop buf) = exact_max buf.
Proof.
  intros Hlen Hs.
  destruct (stats_sum_exact buf) as [Hsum Hb]; [lia|done|].
  assert (Hq : 0 <= exact_sum buf / 50 <= 4095).
  { split; [apply Z.div_pos; lia|].
    apply Z.lt_succ_r. apply Z.div_lt_upper_bound; lia. }
  rewrite (stats_loop_fold buf Hlen).
  split; [|split; [|split; [|split; [|split; [|split; [|split]]]]]].
  - intros k. apply stats_sum_exact.
    + rewrite length_take. lia.
    + by apply Forall_take.
  - exact Hsum.
  - lia.
  - reflexivity.
  - rewrite Hsum. unfold average, to_uint16, LOG_SIZE. apply Z.mod_small. lia.
  - exact Hq.
  - rewrite fold_min, fold_left_min_foldr. cbn [stats_init min].
    destruct buf as [|x buf]; [discriminate Hlen|].
    cbn [foldr exact_min]. inversion Hs as [|? ? Hx _]; subst.
    unfold is_sample in Hx.
    rewrite <- foldr_min_shift. f_equal. lia.
  - rewrite fold_max, fold_left_max_foldr. cbn [stats_init max].
    destruct buf as [|x buf]; [discriminate Hlen|].
    cbn [foldr exact_max]. inversion Hs as [|? ? Hx _]; subst.
    unfold is_sample in Hx.
    rewrite <- foldr_max_shift. f_equal. lia.
Qed.

(** ** The ring log *)

Lemma ring_push (l : list Z) (i : nat) (v : Z) :
  (i < length l)%nat ->
  let j := if (S i <? length l)%nat then S i else 0%nat in
  drop j (<[i:=v]> l) ++ take j (<[i:=v]> l)
  = drop 1 (drop i l ++ take i l) ++ [v].
Proof.
  intros Hi j.
  assert (Hr : drop 1 (drop i l ++ take i l) = drop (S i) l ++ take i l).
  { rewrite drop_app_le by (rewrite length_drop; lia).
    by rewrite drop_drop, Nat.add_1_r. }
  rewrite Hr, insert_take_drop by done. subst j.
  assert (Hti : length (take i l) = i) by (rewrite length_take; lia).
  destruct (Nat.ltb_spec (S i) (length l)) as [Hlt|Hge].
  - replace (take i l ++ v :: drop (S i) l)
      with ((take i l ++ [v]) ++ drop (S i) l) by by rewrite <- app_assoc.
    rewrite drop_app_length', take_app_length'
      by (rewrite length_app, Hti; cbn; lia).
    by rewrite app_assoc.
  - rewrite (drop_ge l (S i)) by lia. cbn [drop take].
    by rewrite !app_nil_r.
Qed.

Lemma last_n_push (n : nat) (xs : list Z) (v : Z) :
  (1 <= n <= length xs)%nat ->
  last_n n (xs ++ [v]) = drop 1 (last_n n xs) ++ [v].
Proof.
  intros Hn. unfold last_n. rewrite length_app. cbn [length].
  rewrite drop_drop, drop_app_le by lia. f_equal. f_equal. lia.
Qed.

Lemma ring_from_push (l : list Z) (idx v : Z) :
  length l = Z.to_nat LOG_SIZE -> 0 <= idx < LOG_SIZE ->
  ring_from (Z.rem (idx + 1) LOG_SIZE) (<[Z.to_nat idx := v]> l)
  = drop 1 (ring_from idx l) ++ [v].
Proof.
  intros Hlen Hidx. unfold ring_from.
  rewrite <- ring_push by (unfold LOG_SIZE in *; lia).
  assert (E : Z.to_nat (Z.rem (idx + 1) LOG_SIZE) =
          if (S (Z.to_nat idx) <? length l)%nat then S (Z.to_nat idx) else 0%nat).
  { rewrite Z.rem_mod_nonneg by (unfold LOG_SIZE in *; lia).
    rewrite Hlen. unfold LOG_SIZE in *.
    destruct (Nat.ltb_spec (S (Z.to_nat idx)) (Z.to_nat 50)).
    - rewrite Z.mod_small by lia. lia.
    - assert (idx = 49) as -> by lia. reflexivity. }
  by rewrite E.
Qed.

(** ** The invariant holds in every reachable state *)

Ltac inv_fields :=
  cbn [adc_log log_index latest_adc xButtonSem xLogMutex sensorTaskHandle
       last_interrupt_time sensor_suspended sensor_pc logger_pc buffer console
       appended set_adc_log set_log_index set_latest_adc set_xButtonSem
       set_xLogMutex set_last_interrupt_time set_sensor_suspended
       set_sensor_pc set_logger_pc set_buffer set_console set_appended
       ring_index sensor_in_cs logger_in_cs in_suspend_window] in *.


Section Invariant.

Variable portTICK_PERIOD_MS : Z.
Local Abbreviation P := portTICK_PERIOD_MS.

Lemma from_log_mono (h h' : list Z) (x : Z) :
  h ⊆ h' -> from_log h x -> from_log h' x.
Proof. intros H [->|Hx]; [by left | right; by apply H]. Qed.

Lemma Forall_from_log_snoc (h l : list Z) (v : Z) :
  Forall (from_log h) l -> Forall (from_log (h ++ [v])) l.
Proof.
  apply Forall_impl. intros x. apply from_log_mono.
  intros y Hy. apply elem_of_app. by left.
Qed.

Lemma inv_start s0 : app_main true true boot_state = Some s0 -> inv s0.
Proof.
  intros [= <-]. constructor; try (vm_compute; done).
  all: cbn; repeat constructor.
Qed.

Lemma isr_inv now s : inv s -> inv (button_isr_handler P now s).
Proof.
  intros [H1 H2 H3 H4 H5 H6 H7 H8 H9 H10]. unfold button_isr_handler.
  destruct (debounce_accepts P now s); [|by constructor].
  destruct s as [lg idx lat sem mtx hdl lit susp spc lpc buf con hist]. inv_fields. constructor; inv_fields; try done.
  unfold xSemaphoreGive_binary. destruct (Nat.ltb_spec sem 1); lia.
Qed.

Lemma rem_index (idx : Z) :
  0 <= idx < LOG_SIZE -> 0 <= Z.rem (idx + 1) LOG_SIZE < LOG_SIZE.
Proof.
  intros H. unfold LOG_SIZE in *. rewrite Z.rem_mod_nonneg by lia.
  apply Z.mod_pos_bound. lia.
Qed.

Lemma ring_after_store (l hist : list Z) (idx v : Z) :
  length l = Z.to_nat LOG_SIZE -> 0 <= idx < LOG_SIZE ->
  ring_from idx l
  = last_n (Z.to_nat LOG_SIZE) (replicate (Z.to_nat LOG_SIZE) 0 ++ hist) ->
  ring_from (Z.rem (idx + 1) LOG_SIZE) (<[Z.to_nat idx := v]> l)
  = last_n (Z.to_nat LOG_SIZE)
      (replicate (Z.to_nat LOG_SIZE) 0 ++ hist ++ [v]).
Proof.
  intros Hlen Hidx Hring. rewrite ring_from_push, Hring by done.
  rewrite app_assoc, last_n_push; [done|].
  rewrite length_app, length_replicate. unfold LOG_SIZE. lia.
Qed.

Lemma sensor_step_inv adc s s' : inv s -> sensor_step adc s = Some s' -> inv s'.
Proof.
  intros [H1 H2 H3 H4 H5 H6 H7 H8 H9 H10] Hs. unfold sensor_step in Hs.
  destruct s as [lg idx lat sem mtx hdl lit susp spc lpc buf con hist]. inv_fields.
  destruct susp; [done|].
  destruct spc; inv_fields.
  all: try (destruct mtx; [done|]).
  all: injection Hs as <-; constructor; inv_fields; try done.
  all: try (by rewrite length_insert).
  all: try (by apply rem_index).
  all: try (by apply ring_after_store).
  all: try (apply Forall_insert; [by apply Forall_from_log_snoc|];
            right; apply elem_of_app; right; apply list_elem_of_here).
  all: try (destruct lpc as [| | | | | | |[]|[]]; inv_fields; try done).
  all: try (destruct H6 as [H6 H6']; split; [done|by apply Forall_from_log_snoc]).
Qed.

Lemma sensor_timeout_inv s s' : inv s -> sensor_timeout s = Some s' -> inv s'.
Proof.
  intros [H1 H2 H3 H4 H5 H6 H7 H8 H9 H10] Hs. unfold sensor_timeout in Hs.
  destruct s as [lg idx lat sem mtx hdl lit susp spc lpc buf con hist]. inv_fields.
  destruct susp; [done|].
  destruct spc; try done. destruct mtx; [|done].
  injection Hs as <-. constructor; inv_fields; done.
Qed.

Lemma take_S_copy (l b : list Z) (i : nat) :
  (i < length l)%nat -> length b = length l -> take i b = take i l ->
  take (S i) (<[i := l !!! i]> b) = take (S i) l.
Proof.
  intros Hi Hlen Ht.
  rewrite (take_S_r l i (l !!! i)) by by apply list_lookup_lookup_total_lt.
  rewrite (take_S_r _ i (l !!! i)) by (apply list_lookup_insert_eq; lia).
  by rewrite take_insert_ge, Ht by lia.
Qed.

Lemma valid_stack_length stack :
  valid_stack stack = true -> length stack = Z.to_nat LOG_SIZE.
Proof.
  unfold valid_stack. intros H. apply andb_prop in H as [H _].
  by apply Nat.eqb_eq.
Qed.

Lemma logger_step_inv stack s s' : inv s -> logger_step stack s = Some s' -> inv s'.
Proof.
  intros [H1 H2 H3 H4 H5 H6 H7 H8 H9 H10] Hs. unfold logger_step in Hs.
  destruct s as [lg idx lat sem mtx hdl lit susp spc lpc buf con hist]. inv_fields. subst hdl.
  destruct lpc as [| | | | |i| |took|took]; inv_fields.
  - destruct sem as [|n]; [done|]. cbn in Hs.
    injection Hs as <-; constructor; inv_fields; try done. lia.
  - injection Hs as <-; constructor; inv_fields; done.
  - injection Hs as <-; constructor; inv_fields; done.
  - destruct (valid_stack stack) eqn:Hv; [|done].
    injection Hs as <-; constructor; inv_fields; try done.
    by apply valid_stack_length.
  - destruct mtx; [done|].
    destruct (sensor_in_cs spc) eqn:Hcs; [done|].
    injection Hs as <-; constructor; inv_fields; try done.
    all: rewrite ?Hcs; try done.
    split; [unfold LOG_SIZE; lia|done].
  - destruct H6 as (Hi & Hb & Ht).
    assert (Hc : take (S i) (<[i:=lg !!! i]> buf) = take (S i) lg)
      by (apply take_S_copy; [lia|lia|done]).
    injection Hs as <-; constructor; inv_fields; try done.
    + by destruct (S i <? Z.to_nat LOG_SIZE)%nat.
    + by destruct (S i <? Z.to_nat LOG_SIZE)%nat.
    + destruct (Nat.ltb_spec (S i) (Z.to_nat LOG_SIZE)).
      * by rewrite length_insert.
      * rewrite !take_ge in Hc by (rewrite ?length_insert; lia). done.
    + by destruct (S i <? Z.to_nat LOG_SIZE)%nat.
  - rewrite andb_true_r in H5.
    injection Hs as <-; constructor; inv_fields; rewrite ?H5; try done.
    subst buf. by split.
  - injection Hs as <-; constructor; inv_fields; done.
  - injection Hs as <-; constructor; inv_fields; done.
Qed.

Lemma logger_timeout_inv s s' : inv s -> logger_timeout s = Some s' -> inv s'.
Proof.
  intros [H1 H2 H3 H4 H5 H6 H7 H8 H9 H10] Hs. unfold logger_timeout in Hs.
  destruct s as [lg idx lat sem mtx hdl lit susp spc lpc buf con hist]. inv_fields.
  destruct lpc; try done. destruct mtx; [|done].
  injection Hs as <-. constructor; inv_fields; done.
Qed.

Lemma step_inv ev s s' : inv s -> step P ev s = Some s' -> inv s'.
Proof.
  intros Hinv Hs. destruct ev as [now|adc| |stack|]; cbn [step] in Hs.
  - destruct (_ && _); [|done]. injection Hs as <-. by apply isr_inv.
  - by eapply sensor_step_inv.
  - by eapply sensor_timeout_inv.
  - by eapply logger_step_inv.
  - by eapply logger_timeout_inv.
Qed.

Lemma reachable_inv s : reachable P s -> inv s.
Proof.
  induction 1 as [s0 H0|s ev s' _ IH Hs]; [by apply inv_start|by eapply step_inv].
Qed.
End Invariant.

(** ** Tactics for executing the model on a state given by its fields *)

Ltac fields :=
  cbv beta iota delta
    [adc_log log_index latest_adc xButtonSem xLogMutex sensorTaskHandle
     last_interrupt_time sensor_suspended sensor_pc logger_pc buffer console
     appended set_adc_log set_log_index set_latest_adc set_xButtonSem
     set_xLogMutex set_last_interrupt_time set_sensor_suspended
     set_sensor_pc set_logger_pc set_buffer set_console set_appended] in *.

Ltac norm_state t :=
  eval cbv beta iota delta
    [step sensor_step sensor_timeout logger_step logger_timeout
     xSemaphoreTake_binary
     adc_log log_index latest_adc xButtonSem xLogMutex sensorTaskHandle
     last_interrupt_time sensor_suspended sensor_pc logger_pc buffer console
     appended set_adc_log set_log_index set_latest_adc set_xButtonSem
     set_xLogMutex set_last_interrupt_time set_sensor_suspended
     set_sensor_pc set_logger_pc set_buffer set_console set_appended] in t.


(** ** Runs *)

Lemma start_state_spec : app_main true true boot_state = Some start_state.
Proof. reflexivity. Qed.

Lemma run_app (P : Z) (evs1 evs2 : list event) (s : state) :
  run P (evs1 ++ evs2) s
  = match run P evs1 s with Some s1 => run P evs2 s1 | None => None end.
Proof.
  revert s. induction evs1 as [|ev evs1 IH]; intros s; cbn [run app]; [done|].
  destruct (step P ev s); [apply IH|done].
Qed.

Lemma run_reachable (P : Z) (evs : list event) (s s' : state) :
  reachable P s -> run P evs s = Some s' -> reachable P s'.
Proof.
  revert s. induction evs as [|ev evs IH]; intros s Hr Hrun; cbn [run] in Hrun.
  - by injection Hrun as <-.
  - destruct (step P ev s) as [s1|] eqn:Hs; [|done].
    apply (IH s1); [by eapply reachable_step|done].
Qed.

Lemma reachable_start_state (P : Z) : reachable P start_state.
Proof. apply reachable_start. reflexivity. Qed.

Lemma reachable_run (P : Z) (s : state) :
  reachable P s <-> exists evs, run P evs start_state = Some s.
Proof.
  split.
  - induction 1 as [s0 H0|s ev s' _ [evs IH] Hs].
    + exists []. rewrite start_state_spec in H0. by injection H0 as <-.
    + exists (evs ++ [ev]). rewrite run_app, IH. cbn [run]. by rewrite Hs.
  - intros [evs Hrun]. eapply run_reachable; [apply reachable_start_state|done].
Qed.

Lemma last_n_app_ge (n : nat) (xs ys : list Z) :
  (n <= length ys)%nat -> last_n n (xs ++ ys) = last_n n ys.
Proof.
  intros H. unfold last_n. rewrite length_app.
  replace (length xs + length ys - n)%nat with (length xs + (length ys - n))%nat by lia.
  apply drop_app_add.
Qed.


Lemma tick_period_cases (P : Z) :
  1 <= P <= 10 ->
  P = 1 \/ P = 2 \/ P = 3 \/ P = 4 \/ P = 5 \/ P = 6 \/ P = 7 \/ P = 8
  \/ P = 9 \/ P = 10.
Proof. lia. Qed.

(** C4: in every reachable state the log has 50 slots and the write index
    is in [0, 50); once 50 values were appended and no append is between
    lines 75 and 76, the log read circularly from the write index is the
    last 50 appended values, oldest first.  Appending 0..59 and taking a
    snapshot gives a copy that, read from index 10, is 10..59. *)
Theorem C4_ring_log (P : Z) :
  (forall s : state, reachable P s ->
     length (adc_log s) = Z.to_nat LOG_SIZE
     /\ 0 <= log_index s < LOG_SIZE
     /\ (sensor_pc s <> S76 -> (Z.to_nat LOG_SIZE <= length (appended s))%nat ->
         ring_from (log_index s) (adc_log s)
         = last_n (Z.to_nat LOG_SIZE) (appended s)))
  /\ (1 <= P <= 10 ->
      exists s : state,
        run P wraparound_run start_state = Some s
        /\ appended s = map Z.of_nat (seq 0 60)
        /\ logger_pc s = L110 true
        /\ log_index s = 10
        /\ buffer s = map Z.of_nat (seq 50 10 ++ seq 10 40)
        /\ ring_from (log_index s) (buffer s) = map Z.of_nat (seq 10 50)).
Proof.
  split.
  - intros s Hr. apply reachable_inv in Hr as [H1 H2 _ _ _ _ _ _ _ H10].
    split; [done|]. split; [done|]. intros Hpc Hk.
    rewrite <- (last_n_app_ge _ (replicate (Z.to_nat LOG_SIZE) 0)) by done.
    rewrite <- H10. unfold ring_index. by destruct (sensor_pc s).
  - intros HP. apply tick_period_cases in HP.
    repeat (destruct HP as [->|HP]); [..|subst P];
      (eexists; split; [vm_compute; reflexivity|]; vm_compute; done).
Qed.


Lemma C4_ring_log_witness :
  let s := default start_state
             (run 10 (SensorRun 0 :: flat_map sensor_cycle (map Z.of_nat (seq 0 60)))
                start_state) in
  (length (adc_log s) = 50%nat /\ log_index s = 10)
  /\ ring_from (log_index s) (adc_log s) = map Z.of_nat (seq 10 50)
  /\ exists s' : state, run 10 wraparound_run start_state = Some s'.
Proof.
  intros s. destruct (C4_ring_log 10) as [H1 H2].
  assert (Hr : reachable 10 s).
  { apply reachable_run.
    exists (SensorRun 0 :: flat_map sensor_cycle (map Z.of_nat (seq 0 60))).
    vm_compute. reflexivity. }
  destruct (H1 s Hr) as (Hlen & Hidx & Hring).
  split; [split; [exact Hlen|reflexivity]|]. split.
  - rewrite Hring; [vm_compute; reflexivity|vm_compute; discriminate|].
    vm_compute. lia.
  - destruct H2 as (s' & Hs' & _); [lia|]. by exists s'.
Defined.


Lemma run_cons (P : Z) (ev : event) (evs : list event) (s s' : state) :
  step P ev s = Some s' -> run P (ev :: evs) s = run P evs s'.
Proof. intros H. cbn [run]. by rewrite H. Qed.

Lemma run_cons_None (P : Z) (ev : event) (evs : list event) (s : state) :
  step P ev s = None -> run P (ev :: evs) s = None.
Proof. intros H. cbn [run]. by rewrite H. Qed.


(** Executes the first event of a run from a state given by its fields. *)
Ltac run_step :=
  lazymatch goal with
  | |- context [run ?P (?ev :: ?evs) ?s] =>
      let r := norm_state (step P ev s) in
      lazymatch r with
      | Some ?s' => rewrite (run_cons P ev evs s s' eq_refl)
      | None => rewrite (run_cons_None P ev evs s eq_refl)
      end
  end.


(** C5: one iteration of the sensor task started at line 69.  With the
    mutex free the sample is stored at the write index, which advances to
    (index + 1) mod 50; with the mutex held the wait expires, log and index
    are unchanged and the iteration ends without a second attempt (the
    events of a storing iteration are not enabled).  In both cases
    [latest_adc] is the sample. *)
Theorem C5_append (P : Z) (s : state) (adc : Z) :
  sensor_pc s = S69 -> sensor_suspended s = false ->
  0 <= log_index s < LOG_SIZE -> 0 <= adc < 2 ^ 16 ->
  exists s' : state,
    run P (sensor_iteration s adc) s = Some s'
    /\ latest_adc s' = adc
    /\ sensor_pc s' = S69
    /\ xLogMutex s' = xLogMutex s
    /\ match xLogMutex s with
       | None =>
           adc_log s' = <[Z.to_nat (log_index s) := adc]> (adc_log s)
           /\ log_index s' = (log_index s + 1) mod LOG_SIZE
           /\ appended s' = appended s ++ [adc]
       | Some _ =>
           adc_log s' = adc_log s
           /\ log_index s' = log_index s
           /\ appended s' = appended s
           /\ run P (sensor_cycle adc) s = None
       end.
Proof.
  intros Hpc Hsusp Hidx Hadc.
  destruct s as [lg idx lat sem mtx hdl lit susp spc lpc buf con hist].
  fields. subst spc susp. unfold sensor_iteration. fields.
  assert (Hu : to_uint16 adc = adc) by (apply Z.mod_small; lia).
  assert (Hr : Z.rem (idx + 1) LOG_SIZE = (idx + 1) mod LOG_SIZE)
    by (apply Z.rem_mod_nonneg; unfold LOG_SIZE in *; lia).
  destruct mtx as [t|].
  - unfold sensor_cycle_dropped, sensor_cycle. cbn [replicate].
    eexists. split; [do 4 run_step; reflexivity|]. fields.
    do 6 (split; [reflexivity|]). do 3 run_step. reflexivity.
  - unfold sensor_cycle. cbn [replicate].
    eexists. split; [do 7 run_step; reflexivity|]. fields.
    rewrite Hu, Hr. do 5 (split; [reflexivity|]). reflexivity.
Qed.


Lemma C5_append_witness :
  let s := set_sensor_pc S69 start_state in
  exists s' : state,
    run 10 (sensor_cycle 1234) s = Some s'
    /\ latest_adc s' = 1234
    /\ adc_log s' = <[0%nat := 1234]> (adc_log s)
    /\ log_index s' = 1.
Proof.
  intros s.
  destruct (C5_append 10 s 1234) as (s' & Hrun & Hl & _ & _ & Ha & Hi & _);
    [reflexivity|reflexivity|vm_compute; split; [discriminate|reflexivity]
    |vm_compute; split; [discriminate|reflexivity]|].
  exists s'. split; [exact Hrun|]. split; [exact Hl|]. split; [exact Ha|].
  rewrite Hi. reflexivity.
Defined.


Lemma debounce_elapsed_exact (P now last : Z) :
  0 <= P -> 0 <= last <= now -> now < 2 ^ 32 -> (now - last) * P < 2 ^ 32 ->
  debounce_elapsed_ms P now last = (now - last) * P.
Proof.
  intros HP Hl Hn Hb. unfold debounce_elapsed_ms, to_uint32.
  rewrite (Z.mod_small (now - last)) by lia.
  apply Z.mod_small. nia.
Qed.

Lemma give_binary_bound (n : nat) :
  (n <= 1)%nat -> xSemaphoreGive_binary n = 1%nat.
Proof.
  intros H. unfold xSemaphoreGive_binary. destruct (Nat.ltb_spec n 1); lia.
Qed.

Lemma accepts_exact (P : Z) (s : state) (now : Z) :
  0 <= P -> 0 <= last_interrupt_time s <= now -> now < 2 ^ 32 ->
  (now - last_interrupt_time s) * P < 2 ^ 32 ->
  debounce_accepts P now s
  = (DEBOUNCE_MS <=? (now - last_interrupt_time s) * P).
Proof.
  intros HP Hl Hn Hb. unfold debounce_accepts.
  by rewrite debounce_elapsed_exact.
Qed.

Lemma accepted_edges_accept (P t : Z) (ts : list Z) (s : state) :
  debounce_accepts P (t / P) s = true ->
  accepted_edges P (t :: ts) s
  = t :: accepted_edges P ts
           (set_xButtonSem (xSemaphoreGive_binary (xButtonSem s))
              (set_last_interrupt_time (t / P) s)).
Proof.
  intros H. cbn [accepted_edges]. unfold button_isr_handler. by rewrite H.
Qed.

Lemma accepted_edges_discard (P t : Z) (ts : list Z) (s : state) :
  debounce_accepts P (t / P) s = false ->
  accepted_edges P (t :: ts) s = accepted_edges P ts s.
Proof.
  intros H. cbn [accepted_edges]. unfold button_isr_handler. by rewrite H.
Qed.

(** The tick count of an edge [d] ms after an edge at [t0] ms. *)
Lemma later_tick (P t0 d : Z) :
  1 <= P -> 0 <= t0 -> 0 <= d ->
  t0 / P <= (t0 + d) / P
  /\ d - (P - 1) <= ((t0 + d) / P - t0 / P) * P <= d + (P - 1)
  /\ (t0 + d) / P <= t0 + d
  /\ ((t0 + d) / P - t0 / P) * P <= t0 + d.
Proof.
  intros HP Ht Hd.
  pose proof (Z.div_mod t0 P ltac:(lia)) as E0.
  pose proof (Z.div_mod (t0 + d) P ltac:(lia)) as E1.
  pose proof (Z.mod_pos_bound t0 P ltac:(lia)) as B0.
  pose proof (Z.mod_pos_bound (t0 + d) P ltac:(lia)) as B1.
  assert (H1 : t0 / P <= (t0 + d) / P) by (apply Z.div_le_mono; lia).
  assert (H2 : 0 <= (t0 + d) / P) by (apply Z.div_pos; lia).
  assert (H3 : 0 <= t0 / P) by (apply Z.div_pos; lia).
  split; [done|]. split; [nia|]. split; nia.
Qed.

Lemma edge_after (P t0 d : Z) (s : state) :
  1 <= P <= 10 -> 0 <= t0 -> 0 <= d -> t0 + d < 2 ^ 32 ->
  last_interrupt_time s = t0 / P ->
  debounce_accepts P ((t0 + d) / P) s
  = (DEBOUNCE_MS <=? ((t0 + d) / P - t0 / P) * P).
Proof.
  intros HP Ht Hd Hb Hl.
  assert (Hl0 : 0 <= t0 / P) by (apply Z.div_pos; lia).
  destruct (later_tick P t0 d) as (H1 & H2 & H3 & H4); [lia..|].
  rewrite accepts_exact; rewrite ?Hl; [done|lia|lia|lia|lia].
Qed.

(** C2 (amended): as long as the tick counter has not wrapped and the
    product with the tick period does not overflow, an edge whose tick count
    is less than 50 ms after the last accepted one changes nothing, and any
    other edge sets [last_interrupt_time] to [now] and leaves the semaphore
    with one item.  For a tick period of 1 to 10 ms and a first edge whose
    tick count is at least 50 ms after tick 0, the edges at t0, t0 + 10,
    t0 + 40, t0 + 60 ms give exactly the accepted edges t0 and t0 + 60, and
    the edges at t0, t0 + 60, t0 + 65 ms give exactly t0 and t0 + 60. *)
Theorem C2_debounce (P : Z) :
  (forall (s : state) (now : Z),
      0 <= P ->
      0 <= last_interrupt_time s <= now -> now < 2 ^ 32 ->
      (now - last_interrupt_time s) * P < 2 ^ 32 ->
      (xButtonSem s <= 1)%nat ->
      ((now - last_interrupt_time s) * P < DEBOUNCE_MS ->
       button_isr_handler P now s = s)
      /\ (DEBOUNCE_MS <= (now - last_interrupt_time s) * P ->
          button_isr_handler P now s
          = set_xButtonSem 1 (set_last_interrupt_time now s)))
  /\ (forall t0 : Z,
      1 <= P <= 10 -> DEBOUNCE_MS <= t0 / P * P -> t0 + 65 < 2 ^ 32 ->
      accepted_edges P [t0; t0 + 10; t0 + 40; t0 + 60] start_state
      = [t0; t0 + 60]
      /\ accepted_edges P [t0; t0 + 60; t0 + 65] start_state
         = [t0; t0 + 60]).
Proof.
  split.
  - intros s now HP Hl Hn Hb Hsem.
    unfold button_isr_handler, debounce_accepts.
    rewrite debounce_elapsed_exact by lia.
    split; intros H.
    + destruct (Z.leb_spec DEBOUNCE_MS ((now - last_interrupt_time s) * P));
        [lia|done].
    + destruct (Z.leb_spec DEBOUNCE_MS ((now - last_interrupt_time s) * P));
        [|lia].
      by rewrite give_binary_bound.
  - intros t0 HP H0 Hb. unfold DEBOUNCE_MS in *.
    assert (Ht0 : 50 <= t0).
    { pose proof (Z.mul_div_le t0 P ltac:(lia)). lia. }
    destruct (later_tick P t0 0) as (_ & _ & Hq & _); [lia..|].
    rewrite Z.add_0_r in Hq.
    assert (Hq0 : 0 <= t0 / P) by (apply Z.div_pos; lia).
    assert (Hfirst : debounce_accepts P (t0 / P) start_state = true).
    { rewrite accepts_exact;
        change (last_interrupt_time start_state) with 0;
        rewrite ?Z.sub_0_r; [by apply Z.leb_le|lia|lia|lia|].
      pose proof (Z.mul_div_le t0 P ltac:(lia)). lia. }
    destruct (later_tick P t0 10) as (_ & H10 & _ & _); [lia..|].
    destruct (later_tick P t0 40) as (_ & H40 & _ & _); [lia..|].
    destruct (later_tick P t0 60) as (_ & H60 & _ & _); [lia..|].
    destruct (later_tick P (t0 + 60) 5) as (_ & H65 & _ & _); [lia..|].
    split.
    + rewrite (accepted_edges_accept _ _ _ _ Hfirst).
      rewrite accepted_edges_discard.
      2:{ rewrite (edge_after P t0 10); [|lia..|reflexivity].
          apply Z.leb_gt. unfold DEBOUNCE_MS. lia. }
      rewrite accepted_edges_discard.
      2:{ rewrite (edge_after P t0 40); [|lia..|reflexivity].
          apply Z.leb_gt. unfold DEBOUNCE_MS. lia. }
      rewrite accepted_edges_accept.
      2:{ rewrite (edge_after P t0 60); [|lia..|reflexivity].
          apply Z.leb_le. unfold DEBOUNCE_MS. lia. }
      reflexivity.
    + rewrite (accepted_edges_accept _ _ _ _ Hfirst).
      rewrite accepted_edges_accept.
      2:{ rewrite (edge_after P t0 60); [|lia..|reflexivity].
          apply Z.leb_le. unfold DEBOUNCE_MS. lia. }
      rewrite accepted_edges_discard.
      2:{ replace (t0 + 65) with (t0 + 60 + 5) by lia.
          rewrite (edge_after P (t0 + 60) 5); [|lia..|reflexivity].
          apply Z.leb_gt. unfold DEBOUNCE_MS. lia. }
      reflexivity.
Qed.

Lemma C2_debounce_witness :
  button_isr_handler 10 3 start_state = start_state
  /\ button_isr_handler 10 6 start_state
     = set_xButtonSem 1 (set_last_interrupt_time 6 start_state)
  /\ accepted_edges 10 [1000; 1000 + 10; 1000 + 40; 1000 + 60] start_state
     = [1000; 1000 + 60]
  /\ accepted_edges 10 [1000; 1000 + 60; 1000 + 65] start_state
     = [1000; 1000 + 60].
Proof.
  destruct (C2_debounce 10) as [H1 H2].
  split; [|split].
  - apply (H1 start_state 3); vm_compute; try done; lia.
  - apply (H1 start_state 6); vm_compute; try done; lia.
  - apply (H2 1000); [lia|vm_compute; discriminate|vm_compute; reflexivity].
Defined.

Lemma C2_first_edge_discarded :
  accepted_edges 10 [0; 10; 40; 60] start_state <> [0; 60]
  /\ accepted_edges 10 [0; 60; 65] start_state <> [0; 60]
  /\ accepted_edges 1 [0; 10; 40; 60] start_state <> [0; 60]
  /\ accepted_edges 1 [0; 60; 65] start_state <> [0; 60]
  /\ button_isr_handler 10 0 start_state = start_state
  /\ button_isr_handler 1 0 start_state = start_state.
Proof. repeat split; by vm_compute. Qed.

(** With a tick period of 16 ms a gap of 60 ms can be measured as three
    ticks, 48 ms: the edge 60 ms after an accepted one is discarded. *)
Lemma coarse_tick_measures_less :
  accepted_edges 16 [1008; 1008 + 10; 1008 + 40; 1008 + 60] start_state
  = [1008].
Proof. reflexivity. Qed.

(** ** The logger task running alone *)

Lemma run_logger_step (stack : list Z) (n : nat) (s s' : state) :
  logger_step stack s = Some s' ->
  run_logger stack (S n) s = run_logger stack n s'.
Proof. intros H. cbn [run_logger]. by rewrite H. Qed.

Lemma run_logger_expire (stack : list Z) (n : nat) (s s' : state) :
  logger_step stack s = None -> logger_timeout s = Some s' ->
  run_logger stack (S n) s = run_logger stack n s'.
Proof. intros H1 H2. cbn [run_logger]. by rewrite H1, H2. Qed.

Lemma run_logger_blocked (stack : list Z) (n : nat) (s : state) :
  logger_step stack s = None -> logger_timeout s = None ->
  run_logger stack n s = s.
Proof. intros H1 H2. destruct n; cbn [run_logger]; [done|]. by rewrite H1, H2. Qed.


Lemma copy_step (stack : list Z) (i : nat) (s : state) :
  logger_pc s = L102 i ->
  logger_step stack s
  = Some (set_logger_pc
            (if (S i <? Z.to_nat LOG_SIZE)%nat then L102 (S i) else L103)
            (set_buffer (<[i := adc_log s !!! i]> (buffer s)) s)).
Proof. intros H. unfold logger_step. by rewrite H. Qed.

Lemma copy_loop (stack : list Z) (n : nat) :
  forall (i : nat) (s : state),
    logger_pc s = L102 i -> (i + S n = Z.to_nat LOG_SIZE)%nat ->
    exists b : list Z,
      forall fuel : nat,
        run_logger stack (S n + fuel) s
        = run_logger stack fuel (set_logger_pc L103 (set_buffer b s)).
Proof.
  induction n as [|n IH]; intros i s Hpc Hi.
  - exists (<[i := adc_log s !!! i]> (buffer s)). intros fuel.
    cbn [Nat.add]. rewrite (run_logger_step _ _ _ _ (copy_step stack i s Hpc)).
    destruct (Nat.ltb_spec (S i) (Z.to_nat LOG_SIZE)); [lia|reflexivity].
  - pose proof (copy_step stack i s Hpc) as Hstep.
    destruct (Nat.ltb_spec (S i) (Z.to_nat LOG_SIZE)); [|lia].
    edestruct (IH (S i)) as [b Hb]; [| |exists b; intros fuel].
    3:{ cbn [Nat.add]. rewrite (run_logger_step _ _ _ _ Hstep).
        cbn [Nat.add] in Hb. rewrite Hb. by destruct s. }
    + by destruct s.
    + lia.
Qed.


Ltac logger_exec tac :=
  cbn [Nat.add];
  erewrite run_logger_step
    by (cbv beta iota delta [logger_step xSemaphoreTake_binary
          adc_log log_index latest_adc xButtonSem xLogMutex sensorTaskHandle
          last_interrupt_time sensor_suspended sensor_pc logger_pc buffer
          console appended set_adc_log set_log_index set_latest_adc
          set_xButtonSem set_xLogMutex set_last_interrupt_time
          set_sensor_suspended set_sensor_pc set_logger_pc set_buffer
          set_console set_appended];
        tac; reflexivity).

Lemma logger_window_free (stack : list Z) (s : state) :
  logger_pc s = L101 -> xLogMutex s = None ->
  exists b : list Z,
    forall fuel : nat,
      run_logger stack (53 + fuel) s
      = run_logger stack fuel
          (set_logger_pc (L110 true)
             (resume_sensor (set_xLogMutex None (set_buffer b s)))).
Proof.
  intros Hpc Hm.
  destruct s as [lg idx lat sem mtx hdl lit susp spc lpc buf con hist].
  fields. subst lpc mtx.
  destruct (copy_loop stack 49 0
    {| adc_log := lg; log_index := idx; latest_adc := lat; xButtonSem := sem;
       xLogMutex := Some Logger; sensorTaskHandle := hdl;
       last_interrupt_time := lit; sensor_suspended := susp; sensor_pc := spc;
       logger_pc := L102 0; buffer := buf; console := con; appended := hist |}
    eq_refl eq_refl) as [b Hb].
  exists b. intros fuel.
  logger_exec idtac.
  change (run_logger stack (S 49 + (2 + fuel))
    {| adc_log := lg; log_index := idx; latest_adc := lat; xButtonSem := sem;
       xLogMutex := Some Logger; sensorTaskHandle := hdl;
       last_interrupt_time := lit; sensor_suspended := susp; sensor_pc := spc;
       logger_pc := L102 0; buffer := buf; console := con; appended := hist |}
    = run_logger stack fuel
        (set_logger_pc (L110 true)
          (resume_sensor (set_xLogMutex None (set_buffer b 
    {| adc_log := lg; log_index := idx; latest_adc := lat; xButtonSem := sem;
       xLogMutex := None; sensorTaskHandle := hdl;
       last_interrupt_time := lit; sensor_suspended := susp; sensor_pc := spc;
       logger_pc := L101; buffer := buf; console := con; appended := hist |}))))).
  rewrite Hb. fields. unfold resume_sensor. fields.
  logger_exec idtac. logger_exec idtac. by destruct hdl.
Qed.

Lemma logger_window_held (stack : list Z) (s : state) (t : task) :
  logger_pc s = L101 -> xLogMutex s = Some t ->
  forall fuel : nat,
    run_logger stack (2 + fuel) s
    = run_logger stack fuel (set_logger_pc (L110 false) (resume_sensor s)).
Proof.
  intros Hpc Hm fuel.
  destruct s as [lg idx lat sem mtx hdl lit susp spc lpc buf con hist].
  fields. subst lpc mtx. cbn [Nat.add].
  erewrite run_logger_expire; [|reflexivity|reflexivity].
  fields. logger_exec idtac. unfold resume_sensor. fields. by destruct hdl.
Qed.

Ltac logger_exec1 tac :=
  rewrite Nat.add_1_l;
  erewrite run_logger_step
    by (cbv beta iota delta [logger_step xSemaphoreTake_binary
          adc_log log_index latest_adc xButtonSem xLogMutex sensorTaskHandle
          last_interrupt_time sensor_suspended sensor_pc logger_pc buffer
          console appended set_adc_log set_log_index set_latest_adc
          set_xButtonSem set_xLogMutex set_last_interrupt_time
          set_sensor_suspended set_sensor_pc set_logger_pc set_buffer
          set_console set_appended];
        tac; reflexivity).

Section Isr.
Variable P : Z.

Lemma isr_frame (now : Z) (s : state) :
  let s' := button_isr_handler P now s in
  adc_log s' = adc_log s /\ log_index s' = log_index s
  /\ latest_adc s' = latest_adc s /\ xLogMutex s' = xLogMutex s
  /\ sensorTaskHandle s' = sensorTaskHandle s
  /\ sensor_suspended s' = sensor_suspended s /\ sensor_pc s' = sensor_pc s
  /\ logger_pc s' = logger_pc s /\ buffer s' = buffer s
  /\ console s' = console s /\ appended s' = appended s.
Proof.
  unfold button_isr_handler. by destruct (debounce_accepts P now s), s.
Qed.

Lemma isr_all_frame (nows : list Z) (s : state) :
  logger_pc (isr_all P nows s) = logger_pc s
  /\ console (isr_all P nows s) = console s.
Proof.
  revert s. induction nows as [|now nows IH]; intros s; [done|].
  unfold isr_all in *. cbn [fold_left].
  destruct (IH (button_isr_handler P now s)) as [-> ->].
  destruct (isr_frame now s) as (_ & _ & _ & _ & _ & _ & _ & -> & _ & -> & _).
  done.
Qed.

Lemma isr_sem (now : Z) (s : state) :
  (xButtonSem s <= 1)%nat ->
  xButtonSem (button_isr_handler P now s)
  = if debounce_accepts P now s then 1%nat else xButtonSem s.
Proof.
  intros H. unfold button_isr_handler.
  destruct (debounce_accepts P now s); [|done].
  destruct s; fields. by apply give_binary_bound.
Qed.

Lemma isr_all_sem (nows : list Z) (s : state) :
  (xButtonSem s <= 1)%nat ->
  (xButtonSem (isr_all P nows s) <= 1)%nat
  /\ ((1 <= count_accepted P nows s)%nat \/ xButtonSem s = 1%nat ->
      xButtonSem (isr_all P nows s) = 1%nat).
Proof.
  revert s. induction nows as [|now nows IH]; intros s Hs.
  - cbn. split; [done|]. intros [H|H]; [lia|done].
  - unfold isr_all in *. cbn [fold_left count_accepted].
    pose proof (isr_sem now s Hs) as Hg.
    destruct (IH (button_isr_handler P now s)) as [H1 H2].
    { rewrite Hg. destruct (debounce_accepts P now s); lia. }
    split; [done|]. intros H. apply H2. rewrite Hg.
    destruct (debounce_accepts P now s); [by right|].
    destruct H as [H|H]; [left; lia|by right].
Qed.

End Isr.

(** C6: whatever the number of edges accepted while the logger task waits
    at line 87, the semaphore holds one item; the logger task, running
    alone, then prints exactly one report and blocks again at line 87 with
    the semaphore empty. *)
Theorem C6_single_slot (P : Z) (s : state) (nows stack : list Z) (extra : nat) :
  logger_pc s = L87 -> (xButtonSem s <= 1)%nat -> valid_stack stack = true ->
  (1 <= count_accepted P nows s)%nat ->
  let s1 := isr_all P nows s in
  let s2 := run_logger stack (58 + extra) s1 in
  xButtonSem s1 = 1%nat
  /\ logger_pc s2 = L87
  /\ xButtonSem s2 = 0%nat
  /\ length (console s2) = S (length (console s))
  /\ logger_step stack s2 = None
  /\ logger_timeout s2 = None.
Proof.
  intros Hpc Hsem Hv Hacc s1 s2.
  destruct (isr_all_frame P nows s) as [Hpc1 Hcon1].
  destruct (isr_all_sem P nows s Hsem) as [_ Hsem1].
  specialize (Hsem1 (or_introl Hacc)). fold s1 in Hpc1, Hcon1, Hsem1.
  rewrite Hpc in Hpc1. split; [done|]. rewrite <- Hcon1.
  subst s2. clearbody s1. clear s Hpc Hsem Hacc Hcon1.
  destruct s1 as [lg idx lat sem mtx hdl lit susp spc lpc buf con hist].
  fields. subst lpc sem.
  replace (58 + extra)%nat with (1 + (1 + (1 + (1 + (53 + (1 + extra))))))%nat by lia.
  logger_exec1 idtac. logger_exec1 idtac.
  destruct mtx as [t|].
  - replace (1 + (1 + (53 + (1 + extra))))%nat
      with (1 + (1 + (2 + (1 + (51 + extra)))))%nat by lia.
    destruct hdl as [h|].
    + logger_exec1 idtac. logger_exec1 ltac:(rewrite Hv).
      erewrite logger_window_held by reflexivity.
      unfold resume_sensor. fields. logger_exec1 idtac.
      rewrite run_logger_blocked by reflexivity. fields.
      rewrite length_app. cbn [length]. repeat split; try done; lia.
    + logger_exec1 idtac. logger_exec1 ltac:(rewrite Hv).
      erewrite logger_window_held by reflexivity.
      unfold resume_sensor. fields. logger_exec1 idtac.
      rewrite run_logger_blocked by reflexivity. fields.
      rewrite length_app. cbn [length]. repeat split; try done; lia.
  - destruct hdl as [h|].
    + logger_exec1 idtac. logger_exec1 ltac:(rewrite Hv).
      edestruct logger_window_free as [b Hb]; [| |rewrite Hb]; [reflexivity..|].
      unfold resume_sensor. fields. logger_exec1 idtac.
      rewrite run_logger_blocked by reflexivity. fields.
      rewrite length_app. cbn [length]. repeat split; try done; lia.
    + logger_exec1 idtac. logger_exec1 ltac:(rewrite Hv).
      edestruct logger_window_free as [b Hb]; [| |rewrite Hb]; [reflexivity..|].
      unfold resume_sensor. fields. logger_exec1 idtac.
      rewrite run_logger_blocked by reflexivity. fields.
      rewrite length_app. cbn [length]. repeat split; try done; lia.
Qed.

(** C7: when the wait at line 101 expires the copy is skipped, [buffer]
    keeps what it held, the sensor task is resumed, and the report of that
    cycle is computed from [buffer] and printed; the log is untouched and
    the logger task waits for the next press. *)
Theorem C7_snapshot_timeout (P : Z) (s : state) (stack : list Z) :
  logger_pc s = L101 -> xLogMutex s <> None ->
  step P (LoggerRun stack) s = None
  /\ exists s1 s2 s3 : state,
      step P LoggerTimeout s = Some s1
      /\ step P (LoggerRun stack) s1 = Some s2
      /\ step P (LoggerRun stack) s2 = Some s3
      /\ logger_pc s1 = L106 false /\ buffer s1 = buffer s
      /\ logger_pc s2 = L110 false /\ buffer s2 = buffer s
      /\ (sensorTaskHandle s <> None -> sensor_suspended s2 = false)
      /\ logger_pc s3 = L87
      /\ console s3 = console s ++ [LoggerTask_report (buffer s)]
      /\ adc_log s3 = adc_log s /\ log_index s3 = log_index s
      /\ xLogMutex s3 = xLogMutex s.
Proof.
  intros Hpc Hm.
  destruct s as [lg idx lat sem mtx hdl lit susp spc lpc buf con hist].
  fields. subst lpc. destruct mtx as [t|]; [|done].
  split; [reflexivity|].
  destruct hdl as [h|].
  - do 3 eexists. split; [reflexivity|]. split; [reflexivity|].
    split; [reflexivity|]. fields. by repeat split.
  - do 3 eexists. split; [reflexivity|]. split; [reflexivity|].
    split; [reflexivity|]. fields. by repeat split.
Qed.

Lemma C7_snapshot_timeout_witness :
  let s := set_logger_pc L101
             (set_buffer (replicate 50 42405)
                (set_xLogMutex (Some Sensor) start_state)) in
  exists s3 : state,
    run 10 [LoggerTimeout; LoggerRun []; LoggerRun []] s = Some s3
    /\ console s3 = [LoggerTask_report (replicate 50 42405)]
    /\ adc_log s3 = adc_log s.
Proof.
  intros s.
  destruct (C7_snapshot_timeout 10 s []) as (_ & s1 & s2 & s3 & H1 & H2 & H3 & H);
    [reflexivity|discriminate|].
  exists s3. cbn [run]. rewrite H1, H2, H3.
  split; [reflexivity|].
  destruct H as (_ & _ & _ & _ & _ & _ & Hc & Hl & _).
  split; [exact Hc|exact Hl].
Defined.

Lemma resume_sensor_spec (s : state) :
  sensorTaskHandle s <> None ->
  sensor_suspended (resume_sensor s) = false
  /\ logger_pc (resume_sensor s) = logger_pc s.
Proof. unfold resume_sensor. by destruct s as [? ? ? ? ? [h|] ? ? ? ? ? ? ?]. Qed.

Lemma logger_from_L101 (stack : list Z) (s : state) :
  logger_pc s = L101 -> sensorTaskHandle s <> None ->
  exists n : nat,
    (n <= 53)%nat
    /\ logger_pc (run_logger stack n s) = L110 (bool_decide (xLogMutex s = None))
    /\ sensor_suspended (run_logger stack n s) = false.
Proof.
  intros Hpc Hh. destruct (xLogMutex s) as [t|] eqn:Hm.
  - exists (2 + 0)%nat. split; [lia|].
    rewrite (logger_window_held stack s t Hpc Hm 0). cbn [run_logger].
    destruct (resume_sensor_spec s Hh) as [H1 H2].
    split; [by destruct (resume_sensor s)|by destruct (resume_sensor s)].
  - destruct (logger_window_free stack s Hpc Hm) as [b Hb].
    exists (53 + 0)%nat. split; [lia|]. rewrite (Hb 0%nat). cbn [run_logger].
    destruct (resume_sensor_spec (set_xLogMutex None (set_buffer b s)))
      as [H1 H2]; [by destruct s|].
    split; [by destruct (resume_sensor _)|by destruct (resume_sensor _)].
Qed.

Lemma logger_from_copy (stack : list Z) (s : state) (i : nat) :
  logger_pc s = L102 i -> (i < Z.to_nat LOG_SIZE)%nat ->
  sensorTaskHandle s <> None ->
  exists n : nat,
    (n <= 52)%nat /\ sensor_suspended (run_logger stack n s) = false.
Proof.
  intros Hpc Hi Hh.
  destruct (copy_loop stack (Z.to_nat LOG_SIZE - S i) i s Hpc) as [b Hb];
    [lia|].
  exists (S (Z.to_nat LOG_SIZE - S i) + 2)%nat.
  split; [unfold LOG_SIZE; lia|]. rewrite Hb.
  destruct s as [lg idx lat sem mtx [h|] lit susp spc lpc buf con hist];
    [|done].
  reflexivity.
Qed.

(** C10: the sensor task is suspended exactly while the logger task is
    between lines 97 and 107; whenever it is suspended the logger task,
    running alone, resumes it within 54 of its own statements, and from
    line 101 it reaches line 110 with the sensor task resumed whether the
    mutex was obtained or the wait expired. *)
Theorem C10_resume_paired (P : Z) (s : state) (stack : list Z) :
  reachable P s -> valid_stack stack = true ->
  sensor_suspended s = in_suspend_window (logger_pc s)
  /\ (sensor_suspended s = true ->
      exists n : nat,
        (n <= 54)%nat /\ sensor_suspended (run_logger stack n s) = false)
  /\ (logger_pc s = L101 ->
      exists n : nat,
        (n <= 53)%nat
        /\ logger_pc (run_logger stack n s)
           = L110 (bool_decide (xLogMutex s = None))
        /\ sensor_suspended (run_logger stack n s) = false).
Proof.
  intros Hr Hv. apply (reachable_inv P) in Hr as [H1 H2 H3 H4 H5 H6 H7 H8 H9 H10].
  assert (Hh : sensorTaskHandle s <> None) by by rewrite H3.
  split; [done|]. split; [|intros Hpc; by apply logger_from_L101].
  intros Hs. rewrite H8 in Hs.
  destruct (logger_pc s) as [| | | | |i| |took|took] eqn:Hpc; try done.
  - (* line 100 *)
    assert (Hstep : logger_step stack s
                    = Some (set_logger_pc L101 (set_buffer stack s)))
      by (unfold logger_step; by rewrite Hpc, Hv).
    destruct (logger_from_L101 stack (set_logger_pc L101 (set_buffer stack s)))
      as (n & Hn & _ & Hres); [by destruct s|by destruct s|].
    exists (S n). split; [lia|]. by rewrite (run_logger_step _ _ _ _ Hstep).
  - (* line 101 *)
    destruct (logger_from_L101 stack s Hpc Hh) as (n & Hn & _ & Hres).
    exists n. split; [lia|done].
  - (* line 102 *)
    destruct H6 as (Hi & _).
    destruct (logger_from_copy stack s i Hpc Hi Hh) as (n & Hn & Hres).
    exists n. split; [lia|done].
  - (* line 103 *)
    exists 2%nat. split; [lia|].
    destruct s as [lg idx lat sem mtx [h|] lit susp spc lpc buf con hist];
      [|done].
    fields. subst lpc. reflexivity.
  - (* line 106 *)
    exists 1%nat. split; [lia|].
    destruct s as [lg idx lat sem mtx [h|] lit susp spc lpc buf con hist];
      [|done].
    fields. subst lpc. reflexivity.
Qed.

Lemma C10_resume_paired_witness :
  exists s : state,
    run 10 [Isr 100; LoggerRun []; LoggerRun []; LoggerRun []] start_state
    = Some s
    /\ sensor_suspended s = true
    /\ exists n : nat,
         (n <= 54)%nat
         /\ sensor_suspended (run_logger (replicate 50 0) n s) = false.
Proof.
  eexists. split; [vm_compute; reflexivity|]. split; [reflexivity|].
  refine (proj1 (proj2 (C10_resume_paired 10 _ (replicate 50 0) _ _)) _).
  - apply reachable_run.
    exists [Isr 100; LoggerRun []; LoggerRun []; LoggerRun []].
    vm_compute. reflexivity.
  - vm_compute. reflexivity.
  - reflexivity.
Defined.


Lemma C6_single_slot_witness :
  count_accepted 10 [100; 200; 300] start_state = 3%nat
  /\ length (console (run_logger (replicate 50 0) 58
                        (isr_all 10 [100; 200; 300] start_state))) = 1%nat.
Proof.
  split; [reflexivity|].
  destruct (C6_single_slot 10 start_state [100; 200; 300] (replicate 50 0) 0)
    as (_ & _ & _ & H & _);
    [reflexivity|vm_compute; lia|reflexivity|vm_compute; lia|exact H].
Defined.


(** ** The copy of the log *)

Section Snapshot.
Variable P : Z.

(** While the logger task holds the mutex no transition changes the log. *)
Lemma log_stable_in_copy (s s' : state) (ev : event) :
  inv s -> logger_in_cs (logger_pc s) = true -> step P ev s = Some s' ->
  adc_log s' = adc_log s /\ log_index s' = log_index s.
Proof.
  intros [H1 H2 H3 H4 H5 H6 H7 H8 H9 H10] Hcs Hs.
  rewrite Hcs, andb_true_r in H5.
  destruct s as [lg idx lat sem mtx hdl lit susp spc lpc buf con hist].
  fields. destruct ev as [now|adc| |stack|]; cbn [step] in Hs.
  - destruct (_ && _); [|done]. injection Hs as <-.
    unfold button_isr_handler. by destruct (debounce_accepts _ _ _).
  - unfold sensor_step in Hs. fields. destruct susp; [done|].
    destruct spc; try done; try (by injection Hs as <-).
    rewrite H4 in Hs. cbn in Hs. by rewrite Hcs in Hs.
  - unfold sensor_timeout in Hs. fields. destruct susp; [done|].
    destruct spc; try done. destruct mtx; [|done]. by injection Hs as <-.
  - unfold logger_step in Hs. fields.
    destruct lpc; try done; by injection Hs as <-.
  - unfold logger_timeout in Hs. fields. by destruct lpc.
Qed.

(** A transition that ends after a completed copy started after one, or
    completed it, and did not touch the copy. *)
Lemma copy_done_step (s s' : state) (ev : event) :
  step P ev s = Some s' -> copy_done (logger_pc s') = true ->
  logger_pc s' = L103
  \/ (copy_done (logger_pc s) = true /\ buffer s' = buffer s).
Proof.
  intros Hs Hd.
  destruct s as [lg idx lat sem mtx hdl lit susp spc lpc buf con hist].
  destruct ev as [now|adc| |stack|]; cbn [step] in Hs.
  - destruct (_ && _); [|done]. injection Hs as <-. right.
    unfold button_isr_handler in *.
    by destruct (debounce_accepts _ _ _).
  - right. unfold sensor_step in Hs. fields. destruct susp; [done|].
    destruct spc; try (destruct mtx; [done|]); injection Hs as <-; done.
  - right. unfold sensor_timeout in Hs. fields. destruct susp; [done|].
    destruct spc; try done. destruct mtx; [|done]. by injection Hs as <-.
  - unfold logger_step in Hs. fields.
    destruct lpc as [| | | | |i| |took|took].
    + destruct sem; [done|]. cbn in Hs. by injection Hs as <-.
    + by injection Hs as <-.
    + injection Hs as <-. by destruct hdl.
    + destruct (valid_stack stack); [|done]. by injection Hs as <-.
    + destruct mtx; [done|]. by injection Hs as <-.
    + injection Hs as <-. fields.
      destruct (S i <? Z.to_nat LOG_SIZE)%nat; [done|by left].
    + injection Hs as <-. by right.
    + injection Hs as <-. right. by destruct hdl, took.
    + by injection Hs as <-.
  - unfold logger_timeout in Hs. fields.
    destruct lpc; try done. destruct mtx; [|done]. by injection Hs as <-.
Qed.

Lemma run_snoc (evs : list event) (ev : event) (s s' : state) :
  run P (evs ++ [ev]) s = Some s' ->
  exists s1 : state, run P evs s = Some s1 /\ step P ev s1 = Some s'.
Proof.
  rewrite run_app. destruct (run P evs s) as [s1|]; [|done].
  cbn [run]. destruct (step P ev s1) as [s2|] eqn:Hs; [|done].
  intros [= <-]. by exists s1.
Qed.

Lemma snapshot_instant (evs : list event) (s : state) :
  run P evs start_state = Some s -> copy_done (logger_pc s) = true ->
  exists (evs1 evs2 : list event) (s1 : state),
    evs = evs1 ++ evs2
    /\ run P evs1 start_state = Some s1
    /\ logger_pc s1 = L103
    /\ xLogMutex s1 = Some Logger
    /\ buffer s = adc_log s1.
Proof.
  revert s. induction evs as [|ev evs IH] using rev_ind; intros s Hrun Hd.
  - cbn [run] in Hrun. by injection Hrun as <-.
  - pose proof Hrun as Hrun'.
    apply run_snoc in Hrun' as (s0 & Hrun0 & Hstep).
    destruct (copy_done_step s0 s ev Hstep Hd) as [Hpc|[Hd0 Hb]].
    + exists (evs ++ [ev]), [], s. rewrite app_nil_r.
      assert (Hinv : inv s).
      { apply (reachable_inv P), reachable_run. by eexists. }
      destruct Hinv as [_ _ _ H4 H5 H6 _ _ _ _].
      rewrite Hpc in H4, H5, H6. cbn in H4, H5.
      rewrite andb_true_r in H5. rewrite H5 in H4. done.
    + destruct (IH s0 Hrun0 Hd0) as (evs1 & evs2 & s1 & -> & H1 & H2 & H3 & H4).
      exists evs1, (evs2 ++ [ev]), s1. rewrite app_assoc, Hb. done.
Qed.

End Snapshot.

(** X15: when the logger task reaches the statistics after a wait at line
    101 that succeeded, [buffer] is the log as it was at one instant of the
    run, at which the logger task held the mutex and no transition could
    change the log; it has 50 values, each the initial 0 or a value stored
    by an append. *)
Theorem copied_snapshot_consistent (P : Z) (evs : list event) (s : state) :
  run P evs start_state = Some s -> logger_pc s = L110 true ->
  (exists (evs1 evs2 : list event) (s1 : state),
      evs = evs1 ++ evs2
      /\ run P evs1 start_state = Some s1
      /\ logger_pc s1 = L103
      /\ xLogMutex s1 = Some Logger
      /\ buffer s = adc_log s1
      /\ forall (ev : event) (s1' : state),
           step P ev s1 = Some s1' ->
           adc_log s1' = adc_log s1 /\ log_index s1' = log_index s1)
  /\ length (buffer s) = Z.to_nat LOG_SIZE
  /\ Forall (from_log (appended s)) (buffer s).
Proof.
  intros Hrun Hpc.
  assert (Hinv : inv s).
  { apply (reachable_inv P), reachable_run. by eexists. }
  split.
  - destruct (snapshot_instant P evs s Hrun) as (evs1 & evs2 & s1 & H);
      [by rewrite Hpc|].
    destruct H as (He & Hr1 & Hp1 & Hm1 & Hb).
    exists evs1, evs2, s1. repeat (split; [done|]).
    intros ev s1' Hs. eapply log_stable_in_copy; [|by rewrite Hp1|done].
    apply (reachable_inv P), reachable_run. by eexists.
  - destruct Hinv as [_ _ _ _ _ H6 _ _ _ _]. by rewrite Hpc in H6.
Qed.

(** C1 (code bug): in the run [expired_wait_run] the sensor task is
    suspended while it holds the mutex, the wait of the logger task at line
    101 expires, [memcpy] is skipped and the logger task goes on to the
    statistics with the uninitialised [buffer]: its 50 values are 42405,
    although nothing was appended to the log. *)
Lemma C1_snapshot_not_a_copy :
  exists s : state,
    run 10 expired_wait_run start_state = Some s
    /\ logger_pc s = L110 false
    /\ buffer s = replicate 50 42405
    /\ appended s = []
    /\ ~ Forall (from_log (appended s)) (buffer s).
Proof.
  eexists. split; [vm_compute; reflexivity|].
  split; [reflexivity|]. split; [reflexivity|]. split; [reflexivity|].
  intros H. apply Forall_inv in H. destruct H as [H|H]; [done|].
  by apply elem_of_nil in H.
Qed.

Lemma copied_snapshot_consistent_witness :
  exists s : state,
    run 10 copied_run start_state = Some s
    /\ logger_pc s = L110 true
    /\ buffer s = 1000 :: 2000 :: replicate 48 0
    /\ Forall (from_log (appended s)) (buffer s).
Proof.
  eexists. split; [vm_compute; reflexivity|]. split; [reflexivity|].
  split; [reflexivity|].
  refine (proj2 (proj2 (copied_snapshot_consistent 10 copied_run _ _ _))).
  - vm_compute. reflexivity.
  - reflexivity.
Defined.



(** ** The statistics on a concrete snapshot *)

Lemma sample_buffer_ok :
  length (100 :: replicate 49 3100) = Z.to_nat LOG_SIZE
  /\ Forall is_sample (100 :: replicate 49 3100).
Proof.
  split; [reflexivity|].
  constructor; [unfold is_sample; lia|].
  apply Forall_replicate. unfold is_sample. lia.
Qed.

Lemma C3_report_statistics_witness :
  let r := LoggerTask_report (100 :: replicate 49 3100) in
  rep_min r ∈ 100 :: replicate 49 3100
  /\ rep_avg r = exact_sum (100 :: replicate 49 3100) / 50
  /\ LoggerTask_report (replicate 7 3100 ++ 100 :: replicate (49 - 7) 3100)
     = {| rep_n := 50; rep_min := 100; rep_max := 3100;
          rep_avg := (49 * 3100 + 100) / 50; rep_threshold := 3000;
          rep_over := 49 |}.
Proof.
  intros r. destruct C3_report_statistics as (H1 & H2 & _).
  destruct sample_buffer_ok as [Hlen Hs].
  destruct (H1 _ Hlen Hs) as (_ & [Hmin _] & _ & _ & Havg & _).
  split; [exact Hmin|]. split; [exact Havg|].
  apply H2. lia.
Defined.

Lemma C9_no_wraparound_witness :
  sum (stats_loop (100 :: replicate 49 3100))
  = exact_sum (100 :: replicate 49 3100)
  /\ min (stats_loop (100 :: replicate 49 3100)) = 100.
Proof.
  destruct sample_buffer_ok as [Hlen Hs].
  destruct (C9_no_wraparound _ Hlen Hs) as (_ & Hsum & _ & _ & _ & _ & Hmin & _).
  split; [exact Hsum|]. rewrite Hmin. reflexivity.
Defined.

(** * Further properties of the firmware *)

(** ** Mutual exclusion and waiting *)

(** X1: in every reachable state the two tasks are not both between taking
    and giving the mutex, and the mutex is held exactly by the task that is
    between them. *)
Theorem mutex_exclusion (P : Z) (s : state) :
  reachable P s ->
  sensor_in_cs (sensor_pc s) && logger_in_cs (logger_pc s) = false
  /\ (xLogMutex s = Some Sensor <-> sensor_in_cs (sensor_pc s) = true)
  /\ (xLogMutex s = Some Logger <-> logger_in_cs (logger_pc s) = true)
  /\ (xLogMutex s = None <->
      sensor_in_cs (sensor_pc s) = false /\ logger_in_cs (logger_pc s) = false).
Proof.
  intros Hr. apply reachable_inv in Hr as [_ _ _ H4 H5 _ _ _ _ _].
  split; [done|]. rewrite H4.
  destruct (sensor_in_cs (sensor_pc s)), (logger_in_cs (logger_pc s));
    try done; repeat split; try done; intros []; done.
Qed.

Lemma mutex_exclusion_witness :
  exists s : state,
    run 10 (replicate 4 (SensorRun 7)) start_state = Some s
    /\ xLogMutex s = Some Sensor
    /\ logger_in_cs (logger_pc s) = false.
Proof.
  eexists. split; [vm_compute; reflexivity|]. split; [reflexivity|].
  assert (Hr : reachable 10
    (default start_state (run 10 (replicate 4 (SensorRun 7)) start_state))).
  { apply reachable_run. exists (replicate 4 (SensorRun 7)). vm_compute. reflexivity. }
  destruct (mutex_exclusion 10 _ Hr) as (Hex & _).
  vm_compute in Hex |- *. exact Hex.
Defined.

(** X2: in no reachable state can the wait of the sensor task at line 74
    expire, and whenever the sensor task is not suspended its next
    statement can run: the logger task holds the mutex only while the
    sensor task is suspended. *)
Theorem sensor_never_waits (P : Z) (s : state) :
  reachable P s ->
  step P SensorTimeout s = None
  /\ (sensor_suspended s = false ->
      forall adc : Z, exists s' : state, step P (SensorRun adc) s = Some s').
Proof.
  intros Hr. apply reachable_inv in Hr as [_ _ _ H4 H5 _ _ H8 _ _].
  cbn [step]. unfold sensor_timeout, sensor_step.
  destruct (sensor_suspended s) eqn:Hs; [split; [done|done]|].
  assert (Hfree : forall v, sensor_pc s = S74 v -> xLogMutex s = None).
  { intros v Hpc. rewrite Hpc in H4. cbn in H4.
    destruct (logger_pc s); try done; by cbn in H8. }
  split.
  - destruct (sensor_pc s) eqn:Hpc; try done. by rewrite (Hfree _ eq_refl).
  - intros _ adc. destruct (sensor_pc s) eqn:Hpc; try by eexists.
    rewrite (Hfree _ eq_refl). by eexists.
Qed.

Lemma sensor_never_waits_witness :
  step 10 SensorTimeout start_state = None
  /\ exists s' : state, step 10 (SensorRun 5) start_state = Some s'.
Proof.
  destruct (sensor_never_waits 10 start_state (reachable_start_state 10))
    as [H1 H2].
  split; [exact H1|]. apply H2. reflexivity.
Defined.

(** X3: the wait of the logger task at line 101 can expire only when the
    sensor task was suspended between lines 74 and 77 while holding the
    mutex; then neither the sensor task nor the copy can run.  Once the
    logger task has resumed it, the sensor task finishes within three
    statements: the reading in flight is stored at the write index (if it
    was not stored yet), the index is advanced by one modulo 50 (if it was
    not advanced yet) and the mutex is released. *)
Theorem expired_wait_cause_and_recovery (P : Z) (s s' : state) :
  reachable P s -> step P LoggerTimeout s = Some s' ->
  (xLogMutex s = Some Sensor
   /\ sensor_in_cs (sensor_pc s) = true
   /\ sensor_suspended s = true
   /\ (forall adc : Z, step P (SensorRun adc) s = None)
   /\ (forall stack : list Z, step P (LoggerRun stack) s = None))
  /\ exists (n : nat) (s'' : state),
       (n <= 3)%nat
       /\ run P (LoggerRun [] :: replicate n (SensorRun 0)) s' = Some s''
       /\ xLogMutex s'' = None
       /\ sensor_suspended s'' = false
       /\ sensor_pc s'' = S80
       /\ appended s'' = appended s ++ in_flight s
       /\ match sensor_pc s with
          | S75 v =>
              adc_log s''
              = <[Z.to_nat (log_index s) := to_uint16 v]> (adc_log s)
              /\ log_index s'' = (log_index s + 1) mod LOG_SIZE
          | S76 =>
              adc_log s'' = adc_log s
              /\ log_index s'' = (log_index s + 1) mod LOG_SIZE
          | _ => adc_log s'' = adc_log s /\ log_index s'' = log_index s
          end.
Proof.
  intros Hr Hs. apply reachable_inv in Hr as [_ H2 H3 H4 H5 _ _ H8 _ _].
  cbn [step] in Hs. unfold logger_timeout in Hs.
  destruct s as [lg idx lat sem mtx hdl lit susp spc lpc buf con hist].
  fields. destruct lpc; try done. destruct mtx as [t|]; [|done].
  injection Hs as <-. cbn in H4, H5, H8. subst hdl susp.
  destruct (sensor_in_cs spc) eqn:Hcs; [|done]. injection H4 as ->.
  split; [by repeat split|].
  assert (Hrem : Z.rem (idx + 1) LOG_SIZE = (idx + 1) mod LOG_SIZE)
    by (apply Z.rem_mod_nonneg; unfold LOG_SIZE in *; lia).
  unfold in_flight.
  destruct spc as [| | | |v| | |]; try done.
  - exists 3%nat. eexists. split; [lia|]. cbn [replicate].
    split; [do 4 run_step; reflexivity|]. fields. rewrite Hrem.
    do 4 (split; [reflexivity|]). split; reflexivity.
  - exists 2%nat. eexists. split; [lia|]. cbn [replicate].
    split; [do 3 run_step; reflexivity|]. fields. rewrite Hrem, app_nil_r.
    do 4 (split; [reflexivity|]). split; reflexivity.
  - exists 1%nat. eexists. split; [lia|]. cbn [replicate].
    split; [do 2 run_step; reflexivity|]. fields. rewrite app_nil_r.
    do 4 (split; [reflexivity|]). split; reflexivity.
Qed.

Lemma expired_wait_cause_and_recovery_witness :
  let s := default start_state (run 10 (take 9 expired_wait_run) start_state) in
  step 10 LoggerTimeout s = Some (set_logger_pc (L106 false) s)
  /\ xLogMutex s = Some Sensor
  /\ sensor_suspended s = true
  /\ exists (n : nat) (s'' : state),
       run 10 (LoggerRun [] :: replicate n (SensorRun 0))
         (set_logger_pc (L106 false) s) = Some s''
       /\ appended s'' = [1000]
       /\ adc_log s'' = <[0%nat := 1000]> (adc_log s)
       /\ log_index s'' = 1.
Proof.
  intros s.
  assert (Hr : reachable 10 s).
  { apply reachable_run. exists (take 9 expired_wait_run). vm_compute. reflexivity. }
  assert (Hs : step 10 LoggerTimeout s = Some (set_logger_pc (L106 false) s))
    by reflexivity.
  destruct (expired_wait_cause_and_recovery 10 s _ Hr Hs)
    as ((H1 & _ & H2 & _) & n & s'' & _ & Hrun & _ & _ & _ & Happ & Hlog & Hidx).
  split; [exact Hs|]. split; [exact H1|]. split; [exact H2|].
  exists n, s''. split; [exact Hrun|]. split; [exact Happ|].
  split; [exact Hlog|exact Hidx].
Defined.

Lemma press_budget (P : Z) (evs : list event) :
  forall s s' : state,
    run P evs s = Some s' ->
    (length (console s') + xButtonSem s' + logger_busy s'
     <= length (console s) + xButtonSem s + logger_busy s
        + accepted_in_run P evs s)%nat.
Proof.
  induction evs as [|ev evs IH]; intros s s' Hrun; cbn [run] in Hrun.
  - injection Hrun as <-. lia.
  - cbn [accepted_in_run].
    destruct (step P ev s) as [s1|] eqn:Hs; [|done].
    specialize (IH s1 s' Hrun).
    enough (length (console s1) + xButtonSem s1 + logger_busy s1
            <= length (console s) + xButtonSem s + logger_busy s
               + match ev with
                 | Isr now => if debounce_accepts P now s then 1 else 0
                 | _ => 0
                 end)%nat by lia.
    clear IH Hrun s'. unfold logger_busy.
    destruct s as [lg idx lat sem mtx hdl lit susp spc lpc buf con hist].
    destruct ev as [now|adc| |stack|]; cbn [step] in Hs.
    + destruct (_ && _); [|done]. injection Hs as <-.
      unfold button_isr_handler. destruct (debounce_accepts _ _ _); fields; [|lia].
      unfold xSemaphoreGive_binary. destruct (Nat.ltb_spec sem 1); lia.
    + unfold sensor_step in Hs. fields. destruct susp; [done|].
      destruct spc; try (destruct mtx; [done|]); injection Hs as <-; fields; lia.
    + unfold sensor_timeout in Hs. fields. destruct susp; [done|].
      destruct spc; try done. destruct mtx; [|done]. injection Hs as <-.
      fields. lia.
    + unfold logger_step in Hs. fields.
      destruct lpc as [| | | | |i| |took|took].
      * destruct sem; [done|]. cbn in Hs. injection Hs as <-. fields. lia.
      * injection Hs as <-. fields. lia.
      * injection Hs as <-. destruct hdl; fields; lia.
      * destruct (valid_stack stack); [|done]. injection Hs as <-. fields. lia.
      * destruct mtx; [done|]. injection Hs as <-. fields. lia.
      * injection Hs as <-. fields.
        destruct (S i <? Z.to_nat LOG_SIZE)%nat; lia.
      * injection Hs as <-. fields. lia.
      * injection Hs as <-. destruct hdl; fields; lia.
      * injection Hs as <-. fields. rewrite length_app. cbn [length]. lia.
    + unfold logger_timeout in Hs. fields.
      destruct lpc; try done. destruct mtx; [|done]. injection Hs as <-.
      fields. lia.
Qed.

(** X4: in every run from the start state, the reports printed, the item
    waiting in the button semaphore and the cycle in progress are together
    at most the number of edges the handler accepted. *)
Theorem no_report_without_press (P : Z) (evs : list event) (s : state) :
  run P evs start_state = Some s ->
  (length (console s) + xButtonSem s + logger_busy s
   <= accepted_in_run P evs start_state)%nat
  /\ (length (console s) <= accepted_in_run P evs start_state)%nat.
Proof.
  intros Hrun. pose proof (press_budget P evs _ _ Hrun) as H.
  change (length (console start_state)) with 0%nat in H.
  change (xButtonSem start_state) with 0%nat in H.
  change (logger_busy start_state) with 0%nat in H. lia.
Qed.

Lemma no_report_without_press_witness :
  exists s : state,
    run 10 copied_run start_state = Some s
    /\ accepted_in_run 10 copied_run start_state = 1%nat
    /\ (length (console s) <= 1)%nat.
Proof.
  eexists. split; [vm_compute; reflexivity|].
  split; [vm_compute; reflexivity|].
  refine (proj2 (no_report_without_press 10 copied_run _ _)).
  vm_compute. reflexivity.
Defined.

(** ** Counting appends *)

Section Counting.
Variable P : Z.

Lemma counting_step (ev : event) (s s' : state) :
  inv s -> index_counts s /\ reading_placed s -> step P ev s = Some s' ->
  index_counts s' /\ reading_placed s'.
Proof.
  intros [_ H2 _ H4 _ _ _ H8 _ _] [HA HB] Hs.
  unfold index_counts, reading_placed, ring_index in *.
  destruct s as [lg idx lat sem mtx hdl lit susp spc lpc buf con hist].
  fields.
  destruct ev as [now|adc| |stack|]; cbn [step] in Hs.
  - destruct (_ && _); [|done]. injection Hs as <-.
    unfold button_isr_handler.
    destruct (debounce_accepts _ _ _); fields; by split.
  - unfold sensor_step in Hs. fields. destruct susp; [done|].
    destruct spc; try (destruct mtx; [done|]); injection Hs as <-; fields;
      try done.
    subst adc_val. rewrite last_snoc. split; [|by right].
    rewrite length_app. cbn [length].
    rewrite Z.rem_mod_nonneg by (unfold LOG_SIZE in *; lia).
    rewrite HA, Nat2Z.inj_add, Z.add_mod_idemp_l by (unfold LOG_SIZE; lia).
    done.
  - unfold sensor_timeout in Hs. fields. destruct susp; [done|].
    destruct spc; try done. destruct mtx; [|done]. injection Hs as <-.
    cbn in H4. destruct lpc; try done; by cbn in H8.
  - unfold logger_step in Hs. fields.
    destruct lpc as [| | | | |i| |took|took].
    + destruct sem; [done|]. cbn in Hs. by injection Hs as <-.
    + by injection Hs as <-.
    + injection Hs as <-. by destruct hdl.
    + destruct (valid_stack stack); [|done]. by injection Hs as <-.
    + destruct mtx; [done|]. by injection Hs as <-.
    + by injection Hs as <-.
    + by injection Hs as <-.
    + injection Hs as <-. by destruct hdl.
    + by injection Hs as <-.
  - unfold logger_timeout in Hs. fields.
    destruct lpc; try done. destruct mtx; [|done]. by injection Hs as <-.
Qed.

Lemma reachable_counting (s : state) :
  reachable P s -> index_counts s /\ reading_placed s.
Proof.
  induction 1 as [s0 H0|s ev s' Hr IH Hs].
  - injection H0 as <-. split; [reflexivity|]. left. by split.
  - eapply counting_step; [by apply (reachable_inv P)|done|done].
Qed.

End Counting.

Lemma last_ring_from (l : list Z) (i : Z) :
  length l = Z.to_nat LOG_SIZE -> 0 <= i < LOG_SIZE ->
  list.last (ring_from i l) = l !! Z.to_nat ((i - 1) mod LOG_SIZE).
Proof.
  intros Hlen Hi. unfold ring_from, LOG_SIZE in *.
  destruct (decide (i = 0)) as [->|Hne].
  - change (Z.to_nat 0) with 0%nat. rewrite drop_0, take_0, app_nil_r.
    rewrite last_lookup, Hlen. reflexivity.
  - rewrite Z.mod_small by lia. rewrite last_app.
    assert (Ht : list.last (take (Z.to_nat i) l) = l !! Z.to_nat (i - 1)).
    { rewrite last_lookup, length_take, lookup_take_lt by lia.
      f_equal. lia. }
    rewrite Ht. destruct (l !! Z.to_nat (i - 1)) eqn:E; [done|].
    apply lookup_ge_None in E. lia.
Qed.

Lemma last_last_n (n : nat) (xs ys : list Z) :
  (0 < n)%nat -> ys <> [] -> list.last (last_n n (xs ++ ys)) = list.last ys.
Proof.
  intros Hn Hys. unfold last_n.
  destruct (last_is_Some ys) as [_ [y Hy]]; [done|].
  apply last_Some in Hy as [ys' ->].
  rewrite app_assoc. rewrite drop_app_le by (rewrite !length_app; cbn; lia).
  by rewrite !last_snoc.
Qed.

(** X12: in every reachable state the slot the next append uses is the
    number of appends so far modulo 50, and the slot before it holds the
    value appended last. *)
Theorem index_counts_appends (P : Z) (s : state) :
  reachable P s ->
  ring_index s = Z.of_nat (length (appended s)) mod LOG_SIZE
  /\ (appended s <> [] ->
      adc_log s !! Z.to_nat ((ring_index s - 1) mod LOG_SIZE)
      = list.last (appended s)).
Proof.
  intros Hr. destruct (reachable_counting P s Hr) as [HA _].
  split; [exact HA|]. intros Hne.
  apply (reachable_inv P) in Hr as [H1 H2 _ _ _ _ _ _ _ H10].
  rewrite <- last_ring_from; [|done|].
  - rewrite H10. apply last_last_n; [unfold LOG_SIZE; lia|done].
  - rewrite HA. apply Z.mod_pos_bound. unfold LOG_SIZE. lia.
Qed.

Lemma index_counts_appends_witness :
  let s := default start_state (run 10 previous_run start_state) in
  log_index s = 3 mod 50 /\ adc_log s !! 2%nat = Some 33.
Proof.
  intros s.
  assert (Hr : reachable 10 s).
  { apply reachable_run. exists previous_run. vm_compute. reflexivity. }
  destruct (index_counts_appends 10 s Hr) as [H1 H2].
  split; [exact H1|]. apply H2. vm_compute. discriminate.
Defined.

(** X13: in every reachable state the number the status line prints is the
    reading about to be stored (sensor task at lines 74-75) or, truncated
    to 16 bits, the value appended last (0 before the first append). *)
Theorem status_print_is_newest_reading (P : Z) (s : state) :
  reachable P s ->
  match sensor_pc s with
  | S74 v | S75 v => ConsolePrintTask_print s = v
  | _ =>
      (appended s = [] /\ ConsolePrintTask_print s = 0)
      \/ list.last (appended s) = Some (to_uint16 (ConsolePrintTask_print s))
  end.
Proof. intros Hr. by destruct (reachable_counting P s Hr) as [_ HB]. Qed.

Lemma status_print_is_newest_reading_witness :
  let s := default start_state (run 10 previous_run start_state) in
  list.last (appended s) = Some (to_uint16 (ConsolePrintTask_print s))
  /\ ConsolePrintTask_print s = 33.
Proof.
  intros s.
  assert (Hr : reachable 10 s).
  { apply reachable_run. exists previous_run. vm_compute. reflexivity. }
  pose proof (status_print_is_newest_reading 10 s Hr) as H.
  split; [|reflexivity].
  destruct H as [[H _]|H]; [discriminate H|exact H].
Defined.

(** ** The statistics do not depend on the order of the snapshot *)

Lemma if_ltb_min (x m : Z) : (if x <? m then x else m) = Z.min x m.
Proof. destruct (Z.ltb_spec x m); lia. Qed.

Lemma if_gtb_max (x m : Z) : (if x >? m then x else m) = Z.max x m.
Proof. destruct (Z.gtb_spec x m); lia. Qed.

Lemma stats_body_comm (a : stats) (x y : Z) :
  stats_body (stats_body a x) y = stats_body (stats_body a y) x.
Proof.
  destruct a as [s mn mx c]. unfold stats_body.
  cbn [sum min max over_threshold_count].
  rewrite !if_ltb_min, !if_gtb_max. f_equal.
  - unfold to_uint32. change (2 ^ 32) with 4294967296.
    rewrite !Z.add_mod_idemp_l by lia. f_equal. lia.
  - lia.
  - lia.
  - destruct (x >? LIGHT_THRESHOLD), (y >? LIGHT_THRESHOLD); lia.
Qed.

Lemma fold_stats_permutation (l l' : list Z) :
  l ≡ₚ l' ->
  forall a : stats, fold_left stats_body l a = fold_left stats_body l' a.
Proof.
  induction 1 as [|x l l' _ IH|x y l|l l' l'' _ IH1 _ IH2]; intros a;
    cbn [fold_left].
  - done.
  - apply IH.
  - by rewrite stats_body_comm.
  - by rewrite IH1, IH2.
Qed.

Lemma ring_from_permutation (i : Z) (l : list Z) : ring_from i l ≡ₚ l.
Proof.
  unfold ring_from. rewrite (comm (++)). by rewrite take_drop.
Qed.

(** X5: the report of a snapshot of 50 values does not depend on their
    order; in particular reading the ring from any slot gives the same
    report as the raw array. *)
Theorem report_order_independent :
  (forall buf buf' : list Z,
      length buf = Z.to_nat LOG_SIZE -> buf ≡ₚ buf' ->
      LoggerTask_report buf = LoggerTask_report buf')
  /\ (forall (buf : list Z) (i : Z),
      length buf = Z.to_nat LOG_SIZE ->
      LoggerTask_report (ring_from i buf) = LoggerTask_report buf).
Proof.
  assert (H : forall buf buf' : list Z,
      length buf = Z.to_nat LOG_SIZE -> buf ≡ₚ buf' ->
      LoggerTask_report buf = LoggerTask_report buf').
  { intros buf buf' Hlen Hp. unfold LoggerTask_report.
    rewrite (stats_loop_fold buf Hlen).
    rewrite (stats_loop_fold buf') by (by rewrite <- Hp).
    by rewrite (fold_stats_permutation buf buf' Hp). }
  split; [exact H|]. intros buf i Hlen. symmetry. apply H; [done|].
  symmetry. apply ring_from_permutation.
Qed.

Lemma report_order_independent_witness :
  LoggerTask_report (ring_from 10 (map Z.of_nat (seq 50 10 ++ seq 10 40)))
  = LoggerTask_report (map Z.of_nat (seq 50 10 ++ seq 10 40)).
Proof.
  apply (proj2 report_order_independent). reflexivity.
Defined.

(** ** The statistics of an arbitrary buffer *)

Lemma valid_stack_spec (stack : list Z) :
  valid_stack stack = true ->
  length stack = Z.to_nat LOG_SIZE /\ Forall is_uint16 stack.
Proof.
  unfold valid_stack. intros H. apply andb_prop in H as [H1 H2].
  split; [by apply Nat.eqb_eq|].
  rewrite forallb_forall in H2. apply Forall_forall. intros x Hx.
  apply H2, andb_prop in Hx as [Ha Hb].
  apply Z.leb_le in Ha. apply Z.ltb_lt in Hb. by split.
Qed.

Lemma exact_sum_bounds16 (l : list Z) :
  Forall is_uint16 l -> 0 <= exact_sum l <= 65535 * Z.of_nat (length l).
Proof.
  induction 1 as [|x l Hx _ IH]; cbn [exact_sum foldr length] in *; [lia|].
  unfold is_uint16 in Hx. fold (exact_sum l). lia.
Qed.

Lemma fold_sum16 (l : list Z) (a : stats) :
  0 <= sum a -> Forall is_uint16 l -> sum a + exact_sum l < 2 ^ 32 ->
  sum (fold_left stats_body l a) = sum a + exact_sum l.
Proof.
  intros Ha Hl. revert a Ha.
  induction Hl as [|x l Hx Hl IH]; intros a Ha Hb;
    cbn [fold_left exact_sum foldr] in *.
  - lia.
  - fold (exact_sum l) in *. pose proof (exact_sum_bounds16 l Hl) as Hs.
    unfold is_uint16 in Hx.
    assert (Hsx : sum (stats_body a x) = sum a + x).
    { cbn [stats_body sum]. unfold to_uint32. apply Z.mod_small. lia. }
    rewrite IH; rewrite Hsx; lia.
Qed.

(** X11: for every content of [buffer] (50 values of 16 bits, not only
    samples) the sum does not wrap, the average is the exact floor, the
    maximum and the count are exact, and the minimum is capped at 4095:
    when every value exceeds 4095 the reported minimum is 4095, which is
    not in the buffer. *)
Theorem report_of_any_buffer (buf : list Z) :
  valid_stack buf = true ->
  let r := LoggerTask_report buf in
  rep_avg r = exact_sum buf / 50
  /\ rep_max r = exact_max buf
  /\ rep_min r = Z.min 4095 (exact_min buf)
  /\ rep_over r = Z.of_nat (length (filter (fun x => 3000 < x) buf))
  /\ (Forall (fun x => 4095 < x) buf -> rep_min r = 4095 /\ rep_min r ∉ buf).
Proof.
  intros Hv r. subst r. apply valid_stack_spec in Hv as [Hlen Hu].
  unfold LoggerTask_report. cbn [rep_avg rep_max rep_min rep_over].
  rewrite (stats_loop_fold buf Hlen).
  pose proof (exact_sum_bounds16 buf Hu) as Hb. rewrite Hlen in Hb.
  assert (Hmin : min (fold_left stats_body buf stats_init)
                 = Z.min 4095 (exact_min buf)).
  { rewrite fold_min, fold_left_min_foldr. cbn [stats_init min].
    destruct buf as [|x buf]; [discriminate Hlen|].
    cbn [foldr exact_min]. rewrite <- foldr_min_shift.
    rewrite <- (foldr_min_shift buf x 4095). f_equal. lia. }
  split; [|split; [|split; [|split]]].
  - rewrite fold_sum16; cbn [stats_init sum]; [|lia|done|unfold LOG_SIZE in Hb; lia].
    unfold average, to_uint16, LOG_SIZE. apply Z.mod_small.
    unfold LOG_SIZE in Hb. split; [apply Z.div_pos; lia|].
    apply Z.div_lt_upper_bound; lia.
  - rewrite fold_max, fold_left_max_foldr. cbn [stats_init max].
    destruct buf as [|x buf]; [discriminate Hlen|].
    cbn [foldr exact_max]. inversion Hu as [|? ? Hx _]; subst.
    unfold is_uint16 in Hx. rewrite <- foldr_max_shift. f_equal. lia.
  - exact Hmin.
  - rewrite fold_over. cbn [stats_init over_threshold_count].
    unfold LIGHT_THRESHOLD. lia.
  - intros Hbig. rewrite fold_min. cbn [stats_init min].
    destruct (fold_min_spec buf 4095) as (H1 & _ & H3).
    rewrite Forall_forall in Hbig.
    assert (H4 : fold_left Z.min buf 4095 = 4095).
    { destruct H3 as [H3|H3]; [done|].
      apply list_elem_of_In, Hbig in H3. lia. }
    rewrite H4. split; [done|]. intros Hin.
    apply list_elem_of_In, Hbig in Hin. lia.
Qed.

Lemma report_of_any_buffer_witness :
  let r := LoggerTask_report (replicate 50 42405) in
  rep_avg r = exact_sum (replicate 50 42405) / 50
  /\ rep_min r = 4095 /\ rep_min r ∉ replicate 50 42405.
Proof.
  intros r.
  destruct (report_of_any_buffer (replicate 50 42405)) as (H1 & _ & _ & _ & H5);
    [reflexivity|].
  split; [exact H1|]. apply H5. apply Forall_replicate. lia.
Defined.

(** ** Snapshots taken before the log is full *)

Lemma head_last_n_zeros (hist : list Z) :
  (length hist < Z.to_nat LOG_SIZE)%nat ->
  0 ∈ last_n (Z.to_nat LOG_SIZE) (replicate (Z.to_nat LOG_SIZE) 0 ++ hist).
Proof.
  intros H. unfold last_n. rewrite length_app, length_replicate.
  rewrite drop_app_le by (rewrite length_replicate; lia).
  apply elem_of_app. left. rewrite drop_replicate.
  destruct (Z.to_nat LOG_SIZE - (Z.to_nat LOG_SIZE + length hist
                                 - Z.to_nat LOG_SIZE))%nat eqn:E; [lia|].
  apply list_elem_of_here.
Qed.

Lemma step_appended (P : Z) (ev : event) (s s' : state) :
  step P ev s = Some s' ->
  appended s' = appended s
  \/ exists v : Z, appended s' = appended s ++ [to_uint16 v].
Proof.
  intros Hs.
  destruct s as [lg idx lat sem mtx hdl lit susp spc lpc buf con hist].
  destruct ev as [now|adc| |stack|]; cbn [step] in Hs.
  - destruct (_ && _); [|done]. injection Hs as <-. left.
    unfold button_isr_handler. by destruct (debounce_accepts _ _ _).
  - unfold sensor_step in Hs. fields. destruct susp; [done|].
    destruct spc; try (destruct mtx; [done|]); injection Hs as <-; fields;
      try (by left).
    right. by eexists.
  - left. unfold sensor_timeout in Hs. fields. destruct susp; [done|].
    destruct spc; try done. destruct mtx; [|done]. by injection Hs as <-.
  - left. unfold logger_step in Hs. fields.
    destruct lpc as [| | | | |i| |took|took].
    + destruct sem; [done|]. cbn in Hs. by injection Hs as <-.
    + by injection Hs as <-.
    + injection Hs as <-. by destruct hdl.
    + destruct (valid_stack stack); [|done]. by injection Hs as <-.
    + destruct mtx; [done|]. by injection Hs as <-.
    + by injection Hs as <-.
    + by injection Hs as <-.
    + injection Hs as <-. by destruct hdl.
    + by injection Hs as <-.
  - left. unfold logger_timeout in Hs. fields.
    destruct lpc; try done. destruct mtx; [|done]. by injection Hs as <-.
Qed.

Lemma appended_uint16 (P : Z) (s : state) :
  reachable P s -> Forall is_uint16 (appended s).
Proof.
  induction 1 as [s0 H0|s ev s' _ IH Hs].
  - injection H0 as <-. constructor.
  - destruct (step_appended P ev s s' Hs) as [->|[v ->]]; [done|].
    apply Forall_app. split; [done|]. constructor; [|constructor].
    unfold is_uint16, to_uint16. apply Z.mod_pos_bound. lia.
Qed.

(** X6: when the copy completes while fewer than 50 values have been
    appended, the snapshot still contains an initial 0 and the reported
    minimum is 0. *)
Theorem early_snapshot_reports_zero_minimum (P : Z) (s : state) :
  reachable P s -> logger_pc s = L103 ->
  (length (appended s) < Z.to_nat LOG_SIZE)%nat ->
  buffer s = adc_log s
  /\ 0 ∈ buffer s
  /\ rep_min (LoggerTask_report (buffer s)) = 0.
Proof.
  intros Hr Hpc Hk. pose proof (appended_uint16 P s Hr) as Hu.
  apply (reachable_inv P) in Hr as [H1 _ _ _ _ H6 H7 _ _ H10].
  rewrite Hpc in H6. rewrite H6. split; [done|].
  assert (H0 : 0 ∈ adc_log s).
  { rewrite <- (ring_from_permutation (ring_index s)), H10.
    by apply head_last_n_zeros. }
  split; [exact H0|].
  unfold LoggerTask_report. cbn [rep_min].
  rewrite (stats_loop_fold _ H1), fold_min. cbn [stats_init min].
  destruct (fold_min_spec (adc_log s) 4095) as (Hle & Hall & Hin).
  rewrite Forall_forall in Hall.
  pose proof (Hall 0 (proj1 (list_elem_of_In _ _) H0)) as Hle0.
  destruct Hin as [Hin|Hin]; [lia|].
  rewrite Forall_forall in H7.
  apply list_elem_of_In, H7 in Hin. destruct Hin as [Hin|Hin]; [done|].
  rewrite Forall_forall in Hu. apply list_elem_of_In, Hu in Hin.
  unfold is_uint16 in Hin. lia.
Qed.

Lemma early_snapshot_reports_zero_minimum_witness :
  let s := default start_state (run 10 (take 73 copied_run) start_state) in
  logger_pc s = L103
  /\ appended s = [1000; 2000]
  /\ rep_min (LoggerTask_report (buffer s)) = 0.
Proof.
  intros s. split; [reflexivity|]. split; [reflexivity|].
  assert (Hr : reachable 10 s).
  { apply reachable_run. exists (take 73 copied_run). vm_compute. reflexivity. }
  destruct (early_snapshot_reports_zero_minimum 10 s Hr) as (_ & _ & H);
    [reflexivity|vm_compute; lia|exact H].
Defined.

(** ** The debounce test *)

(** X7: when the tick counter has wrapped since the last accepted edge, the
    handler measures the elapsed time as [now + 2^32 - last_interrupt_time]
    ticks and compares that with 50 ms. *)
Theorem debounce_across_tick_wraparound (P : Z) (s : state) (now : Z) :
  0 <= P -> 0 <= now < last_interrupt_time s -> last_interrupt_time s < 2 ^ 32 ->
  (now + 2 ^ 32 - last_interrupt_time s) * P < 2 ^ 32 ->
  debounce_elapsed_ms P now (last_interrupt_time s)
  = (now + 2 ^ 32 - last_interrupt_time s) * P
  /\ debounce_accepts P now s
     = (DEBOUNCE_MS <=? (now + 2 ^ 32 - last_interrupt_time s) * P).
Proof.
  intros HP Hn Hl Hb.
  assert (He : debounce_elapsed_ms P now (last_interrupt_time s)
               = (now + 2 ^ 32 - last_interrupt_time s) * P).
  { unfold debounce_elapsed_ms, to_uint32.
    replace (now - last_interrupt_time s)
      with (now + 2 ^ 32 - last_interrupt_time s + (-1) * 2 ^ 32) by lia.
    rewrite Z.mod_add by lia.
    rewrite (Z.mod_small (now + 2 ^ 32 - last_interrupt_time s)) by lia.
    apply Z.mod_small. nia. }
  split; [exact He|]. unfold debounce_accepts. by rewrite He.
Qed.

Lemma debounce_across_tick_wraparound_witness :
  let s := set_last_interrupt_time (2 ^ 32 - 2) start_state in
  debounce_accepts 10 1 s = false /\ debounce_accepts 10 3 s = true.
Proof.
  intros s.
  destruct (debounce_across_tick_wraparound 10 s 1) as [_ H1];
    [lia|vm_compute; split; [discriminate|reflexivity]|reflexivity
    |reflexivity|].
  destruct (debounce_across_tick_wraparound 10 s 3) as [_ H3];
    [lia|vm_compute; split; [discriminate|reflexivity]|reflexivity
    |reflexivity|].
  split; [rewrite H1|rewrite H3]; reflexivity.
Defined.

(** X9: delivering an edge twice with the same tick count is the same as
    delivering it once: an edge accepted at a tick makes every further
    edge at that tick a discarded one. *)
Theorem isr_same_tick_idempotent (P : Z) (now : Z) (s : state) :
  button_isr_handler P now (button_isr_handler P now s)
  = button_isr_handler P now s
  /\ (debounce_accepts P now s = true ->
      debounce_accepts P now (button_isr_handler P now s) = false).
Proof.
  assert (H : debounce_accepts P now s = true ->
              debounce_accepts P now (button_isr_handler P now s) = false).
  { intros Ha. unfold button_isr_handler. rewrite Ha.
    unfold debounce_accepts, debounce_elapsed_ms. destruct s; fields.
    rewrite Z.sub_diag. reflexivity. }
  split; [|exact H].
  destruct (debounce_accepts P now s) eqn:Ha.
  - specialize (H eq_refl). unfold button_isr_handler at 1. by rewrite H.
  - unfold button_isr_handler. by rewrite !Ha.
Qed.

Lemma isr_same_tick_idempotent_witness :
  debounce_accepts 10 7 start_state = true
  /\ debounce_accepts 10 7 (button_isr_handler 10 7 start_state) = false.
Proof.
  split; [reflexivity|].
  apply (proj2 (isr_same_tick_idempotent 10 7 start_state)). reflexivity.
Defined.

(** X10: the handler changes nothing but [last_interrupt_time] and the
    button semaphore, to which it adds at most one item and which it never
    raises above one. *)
Theorem isr_touches_only_debounce_state (P : Z) (now : Z) (s : state) :
  set_xButtonSem (xButtonSem s)
    (set_last_interrupt_time (last_interrupt_time s)
       (button_isr_handler P now s)) = s
  /\ (xButtonSem s <= xButtonSem (button_isr_handler P now s) <= 1 `max` xButtonSem s)%nat.
Proof.
  unfold button_isr_handler.
  destruct s as [lg idx lat sem mtx hdl lit susp spc lpc buf con hist].
  destruct (debounce_accepts P now _); fields.
  all: split; [reflexivity|]; unfold xSemaphoreGive_binary;
    try destruct (Nat.ltb_spec sem 1); lia.
Qed.

Lemma nondecreasing_weaken (a b : Z) (l : list Z) :
  a <= b -> nondecreasing_from b l -> nondecreasing_from a l.
Proof. destruct l as [|x l]; [done|]. cbn. intros ? [? ?]. split; [lia|done]. Qed.

Lemma accepted_ticks_spaced (P : Z) (nows : list Z) :
  0 <= P ->
  forall s : state,
    0 <= last_interrupt_time s ->
    nondecreasing_from (last_interrupt_time s) nows ->
    Forall (fun now => now < 2 ^ 32 /\ now * P < 2 ^ 32) nows ->
    spaced P (last_interrupt_time s) (accepted_ticks P nows s).
Proof.
  intros HP. induction nows as [|now nows IH]; intros s Hl Hs Hb; [done|].
  cbn [accepted_ticks]. destruct Hs as [Hle Hs].
  inversion Hb as [|? ? [Hn Hnb] Hb']; subst. clear Hb. rename Hb' into Hb.
  assert (He : debounce_elapsed_ms P now (last_interrupt_time s)
               = (now - last_interrupt_time s) * P)
    by (apply debounce_elapsed_exact; [lia|lia|lia|nia]).
  unfold button_isr_handler.
  destruct (debounce_accepts P now s) eqn:Ha.
  - cbn [spaced]. split.
    + unfold debounce_accepts in Ha. rewrite He in Ha. by apply Z.leb_le.
    + specialize (IH (set_xButtonSem (xSemaphoreGive_binary (xButtonSem s))
                       (set_last_interrupt_time now s))).
      destruct s; fields. apply IH; [lia|done|done].
  - apply IH; [done| |done]. by apply (nondecreasing_weaken _ now).
Qed.

(** X8: for edges delivered at tick counts that never go back (and do not
    overflow), any two consecutive accepted edges are at least 50 ms apart
    and the first accepted edge is at least 50 ms after tick 0. *)
Theorem accepted_presses_are_spaced (P : Z) (nows : list Z) :
  0 <= P ->
  nondecreasing_from 0 nows ->
  Forall (fun now => now < 2 ^ 32 /\ now * P < 2 ^ 32) nows ->
  spaced P 0 (accepted_ticks P nows start_state).
Proof.
  intros HP Hs Hb.
  by apply (accepted_ticks_spaced P nows HP start_state).
Qed.

Lemma accepted_presses_are_spaced_witness :
  accepted_ticks 10 [0; 1; 4; 6; 7; 11; 30] start_state = [6; 11; 30]
  /\ spaced 10 0 (accepted_ticks 10 [0; 1; 4; 6; 7; 11; 30] start_state).
Proof.
  split; [reflexivity|].
  apply accepted_presses_are_spaced; [lia| |].
  - cbn. lia.
  - repeat (constructor; [lia|]). constructor.
Defined.

(** ** Readings and appends *)

Lemma reading_step (P : Z) (ev : event) (s s' : state) :
  inv s -> step P ev s = Some s' ->
  appended s ++ in_flight s
  ++ map to_uint16 match ev, sensor_pc s with
                   | SensorRun adc, S69 => [adc]
                   | _, _ => []
                   end
  = appended s' ++ in_flight s'.
Proof.
  intros [_ _ _ H4 _ _ _ H8 _ _] Hs. unfold in_flight.
  destruct s as [lg idx lat sem mtx hdl lit susp spc lpc buf con hist].
  fields. destruct ev as [now|adc| |stack|]; cbn [step] in Hs.
  - destruct (_ && _); [|done]. injection Hs as <-.
    unfold button_isr_handler.
    destruct (debounce_accepts _ _ _); fields; destruct spc; by rewrite ?app_nil_r.
  - unfold sensor_step in Hs. fields. destruct susp; [done|].
    destruct spc; try (destruct mtx; [done|]); injection Hs as <-; fields;
      by rewrite ?app_nil_r.
  - unfold sensor_timeout in Hs. fields. destruct susp; [done|].
    destruct spc; try done. destruct mtx; [|done]. injection Hs as <-.
    cbn in H4. destruct lpc; try done; by cbn in H8.
  - unfold logger_step in Hs. fields.
    destruct lpc as [| | | | |i| |took|took].
    + destruct sem; [done|]. cbn in Hs. injection Hs as <-. fields.
      destruct spc; by rewrite ?app_nil_r.
    + injection Hs as <-. fields. destruct spc; by rewrite ?app_nil_r.
    + injection Hs as <-. destruct hdl; fields; destruct spc; by rewrite ?app_nil_r.
    + destruct (valid_stack stack); [|done]. injection Hs as <-. fields.
      destruct spc; by rewrite ?app_nil_r.
    + destruct mtx; [done|]. injection Hs as <-. fields.
      destruct spc; by rewrite ?app_nil_r.
    + injection Hs as <-. fields. destruct spc; by rewrite ?app_nil_r.
    + injection Hs as <-. fields. destruct spc; by rewrite ?app_nil_r.
    + injection Hs as <-. destruct hdl; fields; destruct spc; by rewrite ?app_nil_r.
    + injection Hs as <-. fields. destruct spc; by rewrite ?app_nil_r.
  - unfold logger_timeout in Hs. fields.
    destruct lpc; try done. destruct mtx; [|done]. injection Hs as <-.
    fields. destruct spc; by rewrite ?app_nil_r.
Qed.

Lemma readings_from (P : Z) (evs : list event) :
  forall s s' : state,
    reachable P s -> run P evs s = Some s' ->
    appended s ++ in_flight s ++ map to_uint16 (readings_taken P evs s)
    = appended s' ++ in_flight s'.
Proof.
  induction evs as [|ev evs IH]; intros s s' Hr Hrun; cbn [run] in Hrun.
  - injection Hrun as <-. cbn [readings_taken map]. by rewrite app_nil_r.
  - cbn [readings_taken]. destruct (step P ev s) as [s1|] eqn:Hs; [|done].
    rewrite map_app, !app_assoc.
    rewrite <- (app_assoc (appended s)).
    rewrite (reading_step P ev s s1 (reachable_inv P s Hr) Hs).
    rewrite <- app_assoc. apply IH; [by eapply reachable_step|done].
Qed.

(** X14: in every run from the start state the readings the sensor task
    took at line 69, truncated to 16 bits, are exactly the values appended
    to the log, in order, followed by the reading still in flight. *)
Theorem no_reading_is_lost (P : Z) (evs : list event) (s : state) :
  run P evs start_state = Some s ->
  map to_uint16 (readings_taken P evs start_state) = appended s ++ in_flight s.
Proof.
  intros Hrun.
  by rewrite <- (readings_from P evs start_state s
                   (reachable_start P _ eq_refl) Hrun).
Qed.

Lemma no_reading_is_lost_witness :
  readings_taken 10 copied_run start_state = [1000; 2000; 3000]
  /\ exists s : state,
       run 10 copied_run start_state = Some s
       /\ appended s ++ in_flight s = [1000; 2000; 3000].
Proof.
  split; [reflexivity|]. eexists. split; [vm_compute; reflexivity|].
  symmetry. apply (no_reading_is_lost 10 copied_run). vm_compute. reflexivity.
Defined.
